(** * mini-kep: parsing specification ([kep/spec.py]) and row matching

    A shallow embedding of the data structures of [kep.spec]
    (ParsingInstruction, Scope, Definition, Specification) together with the
    row primitives of [kep.rows] they are used with, and the properties of
    them that the design document states. *)

From Stdlib Require Import List ZArith NArith String Ascii Bool Lia.
Import ListNotations.

(** ** Python strings

    A Python [str] is a sequence of Unicode code points.  Literals are written
    as UTF-8 text and decoded by [u]. *)

Definition str := list N.

Fixpoint utf8_decode (bs : list N) : str :=
  match bs with
  | [] => []
  | b0 :: t0 =>
    if (b0 <? 128)%N then b0 :: utf8_decode t0
    else match t0 with
    | [] => [b0]
    | b1 :: t1 =>
      if (b0 <? 224)%N
      then ((b0 mod 32) * 64 + b1 mod 64)%N :: utf8_decode t1
      else match t1 with
      | [] => [b0; b1]
      | b2 :: t2 =>
        if (b0 <? 240)%N
        then ((b0 mod 16) * 4096 + (b1 mod 64) * 64 + b2 mod 64)%N
               :: utf8_decode t2
        else match t2 with
        | [] => [b0; b1; b2]
        | b3 :: t3 =>
          ((b0 mod 8) * 262144 + (b1 mod 64) * 4096
             + (b2 mod 64) * 64 + b3 mod 64)%N :: utf8_decode t3
        end
      end
    end
  end.

Definition u (s : string) : str :=
  utf8_decode (map N_of_ascii (list_ascii_of_string s)).

Definition str_eqb (a b : str) : bool :=
  if list_eq_dec N.eq_dec a b then true else false.

(** [t.startswith(p)] of Python's [str]. *)
Fixpoint str_startswith (t p : str) {struct p} : bool :=
  match p, t with
  | [], _ => true
  | c :: p', d :: t' => (c =? d)%N && str_startswith t' p'
  | _ :: _, [] => false
  end.

(** [p in t] of Python's [str]: [p] occurs in [t] as a substring. *)
Fixpoint str_contains (t p : str) : bool :=
  str_startswith t p
  || match t with
     | [] => false
     | _ :: t' => str_contains t' p
     end.

(** [sep.join(parts)]. *)
Fixpoint str_join (sep : str) (parts : list str) : str :=
  match parts with
  | [] => []
  | [p] => p
  | p :: rest => p ++ sep ++ str_join sep rest
  end.

(** ** Python values

    The values the functions of [kep.spec] can be handed: they test their
    arguments with [isinstance], [is False], [in] and by using them as
    dictionary keys, so the embedding keeps the dynamic type. *)

#[warnings="-register-all"]
Inductive pyval : Type :=
| PNone
| PBool (b : bool)
| PInt (z : Z)
| PStr (s : str)
| PList (l : list pyval)
| PTuple (l : list pyval).

(** [hash(v)] succeeds: lists are unhashable, tuples hash their elements. *)
Fixpoint hashable (v : pyval) : bool :=
  match v with
  | PList _ => false
  | PTuple l => forallb hashable l
  | _ => true
  end.

(** [a == b]; a [bool] is an [int] ([True == 1]). *)
Fixpoint py_eq (a b : pyval) {struct a} : bool :=
  match a, b with
  | PNone, PNone => true
  | PBool x, PBool y => Bool.eqb x y
  | PBool x, PInt y => (Z.b2z x =? y)%Z
  | PInt x, PBool y => (x =? Z.b2z y)%Z
  | PInt x, PInt y => (x =? y)%Z
  | PStr x, PStr y => str_eqb x y
  | PList l1, PList l2 | PTuple l1, PTuple l2 =>
    (fix all2 (l1 l2 : list pyval) : bool :=
       match l1, l2 with
       | [], [] => true
       | x :: xs, y :: ys => py_eq x y && all2 xs ys
       | _, _ => false
       end) l1 l2
  | _, _ => false
  end.

(** [x in l] for a list or a dictionary view [l]. *)
Definition py_in (x : pyval) (l : list pyval) : bool :=
  existsb (py_eq x) l.

(** [v is False]. *)
Definition is_False (v : pyval) : bool :=
  match v with
  | PBool false => true
  | _ => false
  end.

(** ** Exceptions

    An exception keeps its class and the message; a message built with
    [str.format] from arbitrary objects is kept as the format string and its
    arguments. *)

Inductive exn : Type :=
| ValueError (msg : str) (args : list pyval)
| TypeError (msg : str) (args : list pyval)
| IndexError (msg : str)
| AttributeError (msg : str).

Inductive result (A : Type) : Type :=
| Ok (a : A)
| Raise (e : exn).

Arguments Ok {A} a.
Arguments Raise {A} e.

Definition rbind {A B} (r : result A) (k : A -> result B) : result B :=
  match r with
  | Ok a => k a
  | Raise e => Raise e
  end.

Declare Scope res_scope.
Delimit Scope res_scope with res.
Notation "x <- c ;; k" := (rbind c (fun x => k))
  (at level 61, c at next level, right associativity) : res_scope.

(** ** Ordered dictionaries

    [OrderedDict] (and [dict]) as an association list in insertion order;
    keys are compared with [==] and must be hashable. *)

Definition odict := list (pyval * pyval).

Fixpoint odict_get (d : odict) (k : pyval) : option pyval :=
  match d with
  | [] => None
  | (k', v) :: d' => if py_eq k' k then Some v else odict_get d' k
  end.

(** [d[k] = v]: an existing key keeps its place, a new one goes last. *)
Fixpoint odict_set (d : odict) (k v : pyval) : odict :=
  match d with
  | [] => [(k, v)]
  | (k', v') :: d' =>
    if py_eq k' k then (k', v) :: d' else (k', v') :: odict_set d' k v
  end.

(** [d.update(d2)]. *)
Definition odict_update (d d2 : odict) : odict :=
  fold_left (fun acc kv => odict_set acc (fst kv) (snd kv)) d2 d.

Definition odict_values (d : odict) : list pyval := map snd d.

Definition unhashable (v : pyval) : exn :=
  TypeError (u "unhashable type") [v].

(** [odict(pairs)], [dict(pairs)] and dictionary displays. *)
Fixpoint odict_of_pairs_from (acc : odict) (pairs : list (pyval * pyval))
  : result odict :=
  match pairs with
  | [] => Ok acc
  | (k, v) :: rest =>
    if hashable k then odict_of_pairs_from (odict_set acc k v) rest
    else Raise (unhashable k)
  end.

Definition odict_of_pairs (pairs : list (pyval * pyval)) : result odict :=
  odict_of_pairs_from [] pairs.

(** ** Sets *)

Definition pyset := list pyval.

(** [s.add(v)]. *)
Definition pyset_add (s : pyset) (v : pyval) : result pyset :=
  if hashable v then Ok (if py_in v s then s else s ++ [v])
  else Raise (unhashable v).

(** [set(l)]. *)
Fixpoint pyset_of_list_from (acc : pyset) (l : list pyval) : result pyset :=
  match l with
  | [] => Ok acc
  | v :: rest =>
    match pyset_add acc v with
    | Ok acc' => pyset_of_list_from acc' rest
    | Raise e => Raise e
    end
  end.

Definition pyset_of_list (l : list pyval) : result pyset :=
  pyset_of_list_from [] l.

(** ** Rows ([kep.rows.Row]) *)

Record Row : Type := mkRow { name : str; data : list str }.

(** Modelled from the spec: the quote characters of [Row.startswith]
    ([kep/rows.py] is not part of the sources).  The spec speaks of straight
    and curly quotes: the quotation mark and the left and right double
    quotation marks. *)
Definition is_quote (c : N) : bool :=
  ((c =? 34) || (c =? 8220) || (c =? 8221))%N.

(** Modelled from the spec: the quote normalisation of [Row.startswith].
    Every quote character is mapped to one canonical form, the empty string:
    the spec ignores the normalised character, and a label without quotes
    starts with the same text with quotes
    ([test_startswith_ignores_apostrophe]). *)
Definition normalize_quotes (s : str) : str :=
  filter (fun c => negb (is_quote c)) s.

(** Modelled from the spec: [Row.startswith(text)] is true iff the row's
    label, quote-normalised, begins with [text] similarly normalised. *)
Definition Row_startswith (r : Row) (text : str) : bool :=
  str_startswith (normalize_quotes (name r)) (normalize_quotes text).

(** Modelled from the spec: the scan of [Row.get_varname] collects the
    variable of every mapping key the row starts with. *)
Fixpoint Row_varname_hits (r : Row) (mapping : list (str * str)) : list str :=
  match mapping with
  | [] => []
  | (k, v) :: rest =>
    if Row_startswith r k then v :: Row_varname_hits r rest
    else Row_varname_hits r rest
  end.

(** Modelled from the spec: [Row.get_varname(mapping)]; no hit is
    "not found" ([None], Python's [False]), one hit is that variable, more
    than one hit is the ambiguity error ([ValueError] in the tests; the spec
    gives no message, the error carries the label and the hits). *)
Definition Row_get_varname (r : Row) (mapping : list (str * str))
  : result (option str) :=
  match Row_varname_hits r mapping with
  | [] => Ok None
  | [v] => Ok (Some v)
  | vs => Raise (ValueError [] (PStr (name r) :: map PStr vs))
  end.

(** Modelled from the spec: [Row.get_unit(lexicon)] scans the patterns in
    declared order and returns the unit code of the first one found as a
    substring of the label; [None] is "not found". *)
Fixpoint Row_get_unit (r : Row) (lexicon : list (str * str)) : option str :=
  match lexicon with
  | [] => None
  | (k, code) :: rest =>
    if str_contains (name r) k then Some code else Row_get_unit r rest
  end.

(** ** Row sequence store ([kep.rows.RowStack]) *)

(** Modelled from the spec: the rows from the first one that starts with
    [marker] onwards, with the rows skipped before it. *)
Fixpoint split_at_marker (marker : str) (rows : list Row)
  : option (list Row * list Row) :=
  match rows with
  | [] => None
  | r :: rest =>
    if Row_startswith r marker then Some ([], rows)
    else match split_at_marker marker rest with
         | Some (skipped, found) => Some (r :: skipped, found)
         | None => None
         end
  end.

(** Modelled from the spec: [RowStack.pop(start, end)] on the remaining rows
    [rows] finds the first row that starts with [start] and the first
    subsequent row that starts with [end_]; it returns the run from the
    start row up to the row before the end row, and the remaining rows begin
    at the end row.  The spec does not say what happens when a marker is
    missing: the model has no result there. *)
Definition RowStack_pop (start end_ : str) (rows : list Row)
  : option (list Row * list Row) :=
  match split_at_marker start rows with
  | Some (_, first :: after) =>
    match split_at_marker end_ after with
    | Some (inside, remaining) => Some (first :: inside, remaining)
    | None => None
    end
  | _ => None
  end.

(** ** [kep.spec]: units of measurement *)

(** The mapper from text in table headers to unit of measurement, in the
    order of the source. *)
Definition UNITS : list (str * str) :=
  [ (u "млрд.долларов", u "bln_usd");
    (u "млрд. долларов", u "bln_usd");
    (u "млрд, долларов", u "bln_usd");
    (u "млрд.рублей", u "bln_rub");
    (u "млрд. рублей", u "bln_rub");
    (u "рублей / rubles", u "rub");
    (u "млн.рублей", u "mln_rub");
    (u "Индекс физического объема произведенного ВВП, в %", u "yoy");
    (u "в % к декабрю предыдущего года", u "ytd");
    (u "в % к предыдущему месяцу", u "rog");
    (u "в % к предыдущему периоду", u "rog");
    (u "% к концу предыдущего периода", u "rog");
    (u "период с начала отчетного года в % к соответствующему периоду предыдущего года", u "ytd");
    (u "в % к соответствующему периоду предыдущего года", u "yoy");
    (u "в % к соответствующему месяцу предыдущего года", u "yoy");
    (u "отчетный месяц в % к предыдущему месяцу", u "rog");
    (u "отчетный месяц в % к соответствующему месяцу предыдущего года", u "yoy");
    (u "период с начала отчетного года", u "ytd");
    (u "%", u "pct");
    (u "в % к ВВП", u "gdp_percent");
    (u "млрд. тонно-км", u "bln_tkm");
    (u "продукты питания", u "rog");
    (u "алкогольные напитки", u "rog");
    (u "непродовольственные товары", u "rog");
    (u "непродовольст- венные товары", u "rog");
    (u "услуги", u "rog") ].

(** [UNITS.values()]. *)
Definition UNITS_values : list pyval := map (fun kv => PStr (snd kv)) UNITS.

(** ** [as_list] *)

Definition as_list (x : pyval) : result (list pyval) :=
  match x with
  | PStr _ => Ok [x]
  | PList l => Ok l
  | PTuple l => Ok l
  | _ => Raise (TypeError (u "{0} has wrong type <{1}>.list or str expected.")
                          [x])
  end.

(** ** [ParsingInstruction] *)

Record ParsingInstruction : Type := mkParsingInstruction {
  varname_mapper : odict;
  required_labels : list (pyval * pyval);
  descriptions : odict
}.

(** [ParsingInstruction()]. *)
Definition ParsingInstruction_init : ParsingInstruction :=
  {| varname_mapper := []; required_labels := []; descriptions := [] |}.

(** A method runs on the object and leaves it in the state it has reached,
    whether it returns or raises. *)
Definition method (A : Type) : Type :=
  ParsingInstruction -> result A * ParsingInstruction.

Definition mret {A} (a : A) : method A := fun self => (Ok a, self).

Definition mbind {A B} (m : method A) (k : A -> method B) : method B :=
  fun self =>
    match m self with
    | (Ok a, self') => k a self'
    | (Raise e, self') => (Raise e, self')
    end.

Definition lift {A} (r : result A) : method A := fun self => (r, self).

Definition this : method ParsingInstruction := fun self => (Ok self, self).

Definition mutate (f : ParsingInstruction -> ParsingInstruction)
  : method unit :=
  fun self => (Ok tt, f self).

Declare Scope method_scope.
Delimit Scope method_scope with method.
Notation "x <- c ;; k" := (mbind c (fun x => k))
  (at level 61, c at next level, right associativity) : method_scope.
Notation "c ;;; k" := (mbind c (fun _ => k))
  (at level 61, right associativity) : method_scope.

(** The loop over the required units of [_verify_inputs]. *)
Fixpoint verify_units (rus : list pyval) : result unit :=
  match rus with
  | [] => Ok tt
  | ru :: rest =>
    if negb (py_in ru UNITS_values)
    then Raise (ValueError (u "Unit <{}> not defined") [ru])
    else verify_units rest
  end.

Definition ParsingInstruction__verify_inputs
  (self : ParsingInstruction) (varname required_units : pyval)
  : result unit :=
  if py_in varname (odict_values (varname_mapper self))
  then Raise (ValueError (u "Variable name <{}> already defined") [varname])
  else (rus <- as_list required_units ;; verify_units rus)%res.

(** [l[0]]. *)
Definition list_first (l : list pyval) : result pyval :=
  match l with
  | [] => Raise (IndexError (u "list index out of range"))
  | x :: _ => Ok x
  end.

(** [append(varname, text, required_units, desc=False)]. *)
Definition ParsingInstruction_append
  (varname text required_units desc : pyval) : method unit :=
  (self <- this ;;
   lift (ParsingInstruction__verify_inputs self varname required_units) ;;;
   header_strings <- lift (as_list text) ;;
   desc <- (if is_False desc then lift (list_first header_strings)
            else mret desc) ;;
   required_units <- lift (as_list required_units) ;;
   vmapper <- lift (odict_of_pairs
                      (map (fun hs => (hs, varname)) header_strings)) ;;
   let required_labels' := map (fun unit => (varname, unit)) required_units in
   desc' <- lift (odict_of_pairs [(varname, desc)]) ;;
   mutate (fun s => {| varname_mapper := odict_update (varname_mapper s) vmapper;
                       required_labels := required_labels s;
                       descriptions := descriptions s |}) ;;;
   mutate (fun s => {| varname_mapper := varname_mapper s;
                       required_labels := required_labels s ++ required_labels';
                       descriptions := descriptions s |}) ;;;
   mutate (fun s => {| varname_mapper := varname_mapper s;
                       required_labels := required_labels s;
                       descriptions := odict_update (descriptions s) desc' |})
  )%method.

(** The default of the [desc] argument. *)
Definition no_desc : pyval := PBool false.

(** ** [Scope] *)

Record marker : Type := mkMarker { marker_start : str; marker_end : str }.

(** A [Scope] holds its list of markers. *)
Definition Scope := list marker.

Definition truthy (s : str) : bool :=
  match s with
  | [] => false
  | _ => true
  end.

Definition Scope_add_bounds (self : Scope) (start end_ : str)
  : result Scope :=
  if truthy start && truthy end_
  then Ok (self ++ [mkMarker start end_])
  else Raise (ValueError (u "Cannot accept empty line as Scope() boundary") []).

(** [Scope(start, end)]. *)
Definition Scope_init (start end_ : str) : result Scope :=
  Scope_add_bounds [] start end_.

(** [_is_found(line, rows)]: [line] is found at the start of a row. *)
Fixpoint Scope__is_found (line : str) (rows : list Row) : bool :=
  match rows with
  | [] => false
  | r :: rest =>
    if Row_startswith r line then true else Scope__is_found line rest
  end.

Definition str_of_bool (b : bool) : str :=
  if b then u "True" else u "False".

(** ["is_found: {} <{}>".format(found, line)]. *)
Definition format_is_found (found : bool) (line : str) : str :=
  u "is_found: " ++ str_of_bool found ++ u " <" ++ line ++ u ">".

Definition Scope__error_message (self : Scope) (rows : list Row) : str :=
  let msg := [u "start or end line not found in *rows*"] in
  let msg :=
    fold_left
      (fun msg mk =>
         let s := marker_start mk in
         let e := marker_end mk in
         let msg := msg ++ [format_is_found (Scope__is_found s rows) s] in
         msg ++ [format_is_found (Scope__is_found e rows) e])
      self msg in
  str_join [10%N] msg.

(** The loop over the markers of [get_bounds]: the first marker with both
    lines found, if there is one. *)
Fixpoint first_bounds (markers : list marker) (rows : list Row)
  : option (str * str) :=
  match markers with
  | [] => None
  | mk :: rest =>
    let s := marker_start mk in
    let e := marker_end mk in
    if Scope__is_found s rows && Scope__is_found e rows then Some (s, e)
    else first_bounds rest rows
  end.

Definition Scope_get_bounds (self : Scope) (rows : list Row)
  : result (str * str) :=
  match first_bounds self rows with
  | Some bounds => Ok bounds
  | None => Raise (ValueError (Scope__error_message self rows) [])
  end.

(** Both lines of a marker are found in [rows]. *)
Definition both_found (rows : list Row) (mk : marker) : bool :=
  Scope__is_found (marker_start mk) rows
  && Scope__is_found (marker_end mk) rows.

(** The two lines that report on a marker in the error message. *)
Definition marker_report (rows : list Row) (mk : marker) : list str :=
  [format_is_found (Scope__is_found (marker_start mk) rows) (marker_start mk);
   format_is_found (Scope__is_found (marker_end mk) rows) (marker_end mk)].

(** A marker is present in [rows], in the words of the design document:
    the label of some row begins with it, quote characters being ignored. *)
Definition present (line : str) (rows : list Row) : Prop :=
  exists r, In r rows /\
    exists rest, normalize_quotes (name r) = normalize_quotes line ++ rest.

(** A change of the quote characters of a text: quote characters go to
    quote characters, every other character stays. *)
Definition requotes (f : N -> N) : Prop :=
  forall c, if is_quote c then is_quote (f c) = true else f c = c.

(** Straight quotes made curly. *)
Definition curly (c : N) : N := if (c =? 34)%N then 8220%N else c.

(** ** [Definition]

    The attributes [scope] and [reader] hold [False] ([None] here) or a
    [Scope] and a reader name. *)

Record DefinitionT : Type := mkDefinition {
  instr : ParsingInstruction;
  scope : option Scope;
  reader : option str
}.

(** [set_reader(funcname)]; [FUNC_MAPPER] is defined in [kep.splitter], its
    keys are an argument here. *)
Definition Definition_set_reader (FUNC_MAPPER_keys : list str)
  (self : DefinitionT) (funcname : str) : result DefinitionT :=
  if existsb (str_eqb funcname) FUNC_MAPPER_keys
  then Ok {| instr := instr self; scope := scope self;
             reader := Some funcname |}
  else Raise (ValueError [] [PStr funcname]).

(** [set_scope(sc)] for a [Scope]. *)
Definition Definition_set_scope (self : DefinitionT) (sc : Scope)
  : DefinitionT :=
  {| instr := instr self; scope := Some sc; reader := reader self |}.

(** [Definition(scope=False, reader=False)]: an argument left out, or
    [False], is [None]. *)
Definition Definition_init (FUNC_MAPPER_keys : list str)
  (scope_arg : option Scope) (reader_arg : option str) : result DefinitionT :=
  let self := {| instr := ParsingInstruction_init;
                 scope := None; reader := None |} in
  let self :=
    match scope_arg with
    | Some sc => Definition_set_scope self sc
    | None => {| instr := instr self; scope := None; reader := reader self |}
    end in
  match reader_arg with
  | Some (c :: funcname) =>
    Definition_set_reader FUNC_MAPPER_keys self (c :: funcname)
  | _ => Ok {| instr := instr self; scope := scope self; reader := None |}
  end.

(** [Definition.append]: delegates to the instruction. *)
Definition Definition_append (self : DefinitionT)
  (varname text required_units desc : pyval) : result unit * DefinitionT :=
  let (r, instr') :=
    ParsingInstruction_append varname text required_units desc (instr self) in
  (r, {| instr := instr'; scope := scope self; reader := reader self |}).

Definition Definition_get_varname_mapper (self : DefinitionT) : odict :=
  varname_mapper (instr self).

Definition Definition_get_required_labels (self : DefinitionT)
  : list (pyval * pyval) :=
  required_labels (instr self).

Definition Definition_get_reader (self : DefinitionT) : option str :=
  reader self.

(** [Definition.get_varnames]: [list(set(varnames))]; the order of a set is
    not fixed by Python, the model keeps first occurrences in order. *)
Definition Definition_get_varnames (self : DefinitionT)
  : result (list pyval) :=
  let varnames := odict_values (Definition_get_varname_mapper self) in
  pyset_of_list varnames.

(** [Definition.get_bounds]: [self.scope.get_bounds(rows)]; [False] has no
    such attribute. *)
Definition Definition_get_bounds (self : DefinitionT) (rows : list Row)
  : result (str * str) :=
  match scope self with
  | Some sc => Scope_get_bounds sc rows
  | None =>
    Raise (AttributeError (u "'bool' object has no attribute 'get_bounds'"))
  end.

(** ** [Specification]

    The definitions are held by value: no property below depends on a
    [Definition] being changed after it was handed to the specification. *)

Record Specification : Type := mkSpecification {
  main : DefinitionT;
  segment_definitions : list DefinitionT
}.

(** [Specification(default)]. *)
Definition Specification_init (default : DefinitionT) : Specification :=
  {| main := default; segment_definitions := [] |}.

Definition Specification_append (self : Specification) (pdef : DefinitionT)
  : Specification :=
  {| main := main self;
     segment_definitions := segment_definitions self ++ [pdef] |}.

Definition Specification_get_main_parsing_definition (self : Specification)
  : DefinitionT := main self.

Definition Specification_get_segment_parsing_definitions
  (self : Specification) : list DefinitionT := segment_definitions self.

Definition Specification_all_definitions (self : Specification)
  : list DefinitionT :=
  [main self] ++ segment_definitions self.

Definition Specification_get_required_labels (self : Specification)
  : list (pyval * pyval) :=
  fold_left (fun req pdef => req ++ Definition_get_required_labels pdef)
            (Specification_all_definitions self) [].

(** The loop of [Specification.get_varnames]: each definition's list of
    variable names is added to the set. *)
Fixpoint add_varnames (varnames : pyset) (pdefs : list DefinitionT)
  : result pyset :=
  match pdefs with
  | [] => Ok varnames
  | pdef :: rest =>
    (names <- Definition_get_varnames pdef ;;
     varnames' <- pyset_add varnames (PList names) ;;
     add_varnames varnames' rest)%res
  end.

Definition Specification_get_varnames (self : Specification)
  : result (list pyval) :=
  add_varnames [] (Specification_all_definitions self).

(** A specification built from a default definition and the segment
    definitions appended in turn. *)
Definition Specification_build (default : DefinitionT)
  (segments : list DefinitionT) : Specification :=
  fold_left Specification_append segments (Specification_init default).

(** ** The rows of the tests ([mock_rows] of [test_rows.py]) *)

Definition apt : Row := mkRow (u "apt extra text") [u "1"; u "2"].
Definition bat : Row := mkRow (u "bat aa...ah") [u "1"; u "2"].
Definition can : Row := mkRow (u "can extra text") [u "1"; u "2"].
Definition dot : Row := mkRow (u "dot oo...eh") [u "1"; u "2"].
Definition wed : Row := mkRow (u "wed more text") [u "1"; u "2"].
Definition zed : Row := mkRow (u "zed some text") [].

Definition mock_rows : list Row := [apt; bat; can; dot; wed; zed].

(** The rows of [Test_Row] and a label in quotes. *)
Definition row1 : Row := mkRow (u "Объем ВВП") [u ""; u ""; u ""; u ""].
Definition row2 : Row :=
  mkRow (u "1991 1)") [u "4823"; u "901"; u "1102"; u "1373"; u "1447"].

Definition quoted (s : str) : str := [34%N] ++ s ++ [34%N].

(** ** Sample definitions

    [Definition()], the document-wide default, and a segment definition
    [Definition(scope=Scope("1.6. a", "1.7. b"))]. *)

Definition main0 : DefinitionT :=
  {| instr := ParsingInstruction_init; scope := None; reader := None |}.

Definition segment0 : DefinitionT :=
  {| instr := ParsingInstruction_init;
     scope := Some [mkMarker (u "1.6. a") (u "1.7. b")];
     reader := None |}.

(** The instruction of the main definition after its first [append]:
    [main.append(varname="GDP", text=[...], required_units=["bln_rub", "yoy"],
    desc=...)]. *)
Definition gdp_instr : ParsingInstruction :=
  snd (ParsingInstruction_append
         (PStr (u "GDP"))
         (PList [PStr (u "Oбъем ВВП");
                 PStr (u "Индекс физического объема произведенного ВВП, в %");
                 PStr (u "Валовой внутренний продукт")])
         (PList [PStr (u "bln_rub"); PStr (u "yoy")])
         (PStr (u "Валовый внутренний продукт (ВВП)"))
         ParsingInstruction_init).

(** The scope of the investment segment, and rows of a release that
    numbers it 1.7. *)
Definition investment_scope : Scope :=
  [mkMarker (u "1.6. Инвестиции в основной капитал")
            (u "1.6.1. Инвестиции в основной капитал организаций");
   mkMarker (u "1.7. Инвестиции в основной капитал")
            (u "1.7.1. Инвестиции в основной капитал организаций")].

Definition investment_rows : list Row :=
  [mkRow (u "1.6. Оборот розничной торговли") [];
   mkRow (u "1.7. Инвестиции в основной капитал, млрд.рублей") [];
   mkRow (u "1999") [u "670,4"];
   mkRow (u "1.7.1. Инвестиции в основной капитал организаций") []].

(** ** Further methods of [kep.spec] *)

(** Two lists are equal element by element ([==] on lists and tuples). *)
Fixpoint all2b {A : Type} (f : A -> A -> bool) (l1 l2 : list A) : bool :=
  match l1, l2 with
  | [], [] => true
  | x :: xs, y :: ys => f x y && all2b f xs ys
  | _, _ => false
  end.

(** [(a, b) == (c, d)] for the pairs of [required_labels] and the items of a
    dictionary. *)
Definition pair_eq (p q : pyval * pyval) : bool :=
  py_eq (fst p) (fst q) && py_eq (snd p) (snd q).

(** [ParsingInstruction.__eq__] against another instruction: the required
    labels are compared as lists, the mappers as [OrderedDict]s, that is as
    the lists of their items. *)
Definition ParsingInstruction_eq (self x : ParsingInstruction) : bool :=
  let flag1 := all2b pair_eq (required_labels self) (required_labels x) in
  let flag2 := all2b pair_eq (varname_mapper self) (varname_mapper x) in
  flag1 && flag2.

(** The arguments of one call of [append]. *)
Record append_call : Type := mkCall {
  call_varname : pyval;
  call_text : pyval;
  call_required_units : pyval;
  call_desc : pyval
}.

(** A series of calls of [append] on one instruction; a call that raises
    leaves the instruction in the state it has reached and the next call
    goes on from there. *)
Fixpoint ParsingInstruction_appends (calls : list append_call)
  (self : ParsingInstruction) : ParsingInstruction :=
  match calls with
  | [] => self
  | c :: rest =>
    ParsingInstruction_appends rest
      (snd (ParsingInstruction_append (call_varname c) (call_text c)
              (call_required_units c) (call_desc c) self))
  end.

(** No two elements of a list are equal ([==]). *)
Fixpoint py_distinct (l : list pyval) : bool :=
  match l with
  | [] => true
  | x :: xs => negb (py_in x xs) && py_distinct xs
  end.

(** [Scope(start, end)] followed by [add_bounds] for each further pair. *)
Fixpoint Scope_add_all (self : Scope) (pairs : list (str * str))
  : result Scope :=
  match pairs with
  | [] => Ok self
  | (s, e) :: rest =>
    (self' <- Scope_add_bounds self s e ;; Scope_add_all self' rest)%res
  end.

Definition Scope_build (start end_ : str) (more : list (str * str))
  : result Scope :=
  (self <- Scope_init start end_ ;; Scope_add_all self more)%res.

(** [Scope.__repr__]: the first ten characters of the first pair. *)
Definition Scope_repr (self : Scope) : result str :=
  match self with
  | [] => Raise (IndexError (u "list index out of range"))
  | mk :: _ =>
    let s := firstn 10 (marker_start mk) in
    let e := firstn 10 (marker_end mk) in
    Ok (u "bound by start <" ++ s ++ u "...> and end <" ++ e ++ u "...>")
  end.

(** What every instruction built by [append] keeps: the labels and the
    variable names of the mapper are hashable and every variable of the
    mapper has a description; every required label names a unit of [UNITS]
    and a variable that has a description. *)
Definition mapper_described (self : ParsingInstruction) : Prop :=
  forall k v, In (k, v) (varname_mapper self) ->
    hashable k = true /\ hashable v = true /\
    odict_get (descriptions self) v <> None.

Definition labels_known (self : ParsingInstruction) : Prop :=
  forall v unit, In (v, unit) (required_labels self) ->
    py_in unit UNITS_values = true /\
    odict_get (descriptions self) v <> None.

(** Rows of a release in which the end line of the investment segment is
    missing. *)
Definition investment_rows_cut : list Row :=
  [mkRow (u "1.7. Инвестиции в основной капитал, млрд.рублей") [];
   mkRow (u "1999") [u "670,4"]].

(** ** Induction over Python values *)

Section pyval_induction.
Variable P : pyval -> Prop.
Hypothesis HNone : P PNone.
Hypothesis HBool : forall b, P (PBool b).
Hypothesis HInt : forall z, P (PInt z).
Hypothesis HStr : forall s, P (PStr s).
Hypothesis HList : forall l, Forall P l -> P (PList l).
Hypothesis HTuple : forall l, Forall P l -> P (PTuple l).

Fixpoint pyval_nested_ind (v : pyval) : P v :=
  let fix all (l : list pyval) : Forall P l :=
    match l with
    | [] => Forall_nil P
    | x :: xs => Forall_cons x (pyval_nested_ind x) (all xs)
    end in
  match v with
  | PNone => HNone
  | PBool b => HBool b
  | PInt z => HInt z
  | PStr s => HStr s
  | PList l => HList l (all l)
  | PTuple l => HTuple l (all l)
  end.
End pyval_induction.

(** * Properties *)

(** ** Strings *)

(** The literals are decoded to code points. *)
Example utf8_decode_sample :
  u "a%ВВП“”€😀"
  = [97; 37; 1042; 1042; 1055; 8220; 8221; 8364; 128512]%N.
Proof. reflexivity. Qed.

Lemma str_eqb_refl (s : str) : str_eqb s s = true.
Proof.
  unfold str_eqb. destruct (list_eq_dec N.eq_dec s s); congruence.
Qed.

Lemma str_eqb_eq (a b : str) : str_eqb a b = true <-> a = b.
Proof.
  unfold str_eqb. destruct (list_eq_dec N.eq_dec a b); split; congruence.
Qed.

Lemma str_startswith_iff (t p : str) :
  str_startswith t p = true <-> exists k, t = p ++ k.
Proof.
  revert t. induction p as [|c p IH]; intros t; simpl.
  - split; [intros _; now exists t | reflexivity].
  - destruct t as [|d t].
    + split; [discriminate | intros [k Hk]; discriminate].
    + rewrite andb_true_iff, N.eqb_eq, IH. split.
      * intros [-> [k ->]]. now exists k.
      * intros [k Hk]. injection Hk as -> ->. split; [reflexivity | now exists k].
Qed.

Lemma str_contains_iff (t p : str) :
  str_contains t p = true <-> exists a b, t = a ++ p ++ b.
Proof.
  induction t as [|d t IH].
  - simpl. rewrite orb_false_r, str_startswith_iff. split.
    + intros [k Hk]. now exists [], k.
    + intros (a & b & Hab). destruct a; [now exists b | discriminate].
  - change (str_contains (d :: t) p)
      with (str_startswith (d :: t) p || str_contains t p).
    rewrite orb_true_iff, str_startswith_iff, IH. split.
    + intros [[k Hk] | (a & b & Hab)].
      * now exists [], k.
      * exists (d :: a), b. simpl. now rewrite Hab.
    + intros (a & b & Hab). destruct a as [|d' a].
      * left. now exists b.
      * right. injection Hab as _ Hab. now exists a, b.
Qed.

(** ** Python values and dictionaries *)

Lemma py_eq_refl (v : pyval) : py_eq v v = true.
Proof.
  induction v as [| b | z | s | l IH | l IH] using pyval_nested_ind;
    simpl; auto using Z.eqb_refl, eqb_reflx, str_eqb_refl.
  - induction IH as [|x xs Hx _ IHxs]; [reflexivity|].
    now rewrite Hx, IHxs.
  - induction IH as [|x xs Hx _ IHxs]; [reflexivity|].
    now rewrite Hx, IHxs.
Qed.

Lemma odict_get_set_same (d : odict) (k v : pyval) :
  odict_get (odict_set d k v) k = Some v.
Proof.
  induction d as [|[k' v'] d IH]; simpl.
  - now rewrite py_eq_refl.
  - destruct (py_eq k' k) eqn:E; simpl; now rewrite E.
Qed.

(** ** Specification *)

Lemma Specification_build_fields (default : DefinitionT)
  (segments : list DefinitionT) (spec : Specification) :
  main (fold_left Specification_append segments spec) = main spec /\
  segment_definitions (fold_left Specification_append segments spec)
    = segment_definitions spec ++ segments.
Proof.
  revert spec. induction segments as [|d ds IH]; intros spec; simpl.
  - now rewrite app_nil_r.
  - destruct (IH (Specification_append spec d)) as [Hm Hs].
    rewrite Hm, Hs. simpl. now rewrite <- app_assoc.
Qed.

(** C1, as the code has it: for every specification built from a default
    definition and any sequence of appended segment definitions,
    [all_definitions] returns the default definition FIRST, followed by the
    segment definitions in the order they were appended. *)
Theorem C1_all_definitions_default_first :
  forall (default : DefinitionT) (segments : list DefinitionT),
    Specification_all_definitions (Specification_build default segments)
    = default :: segments.
Proof.
  intros default segments. unfold Specification_all_definitions,
    Specification_build.
  destruct (Specification_build_fields default segments
              (Specification_init default)) as [Hm Hs].
  now rewrite Hm, Hs.
Qed.

(** C1 as stated fails: with the default [Definition()] and one segment
    definition appended, the list returned is [default; segment], and its
    last element is the segment definition, not the default one. *)
Lemma C1_default_is_not_last :
  Definition_init [] None None = Ok main0 /\
  (sc <- Scope_init (u "1.6. a") (u "1.7. b") ;;
   Definition_init [] (Some sc) None)%res = Ok segment0 /\
  Specification_all_definitions (Specification_build main0 [segment0])
    = [main0; segment0] /\
  last (Specification_all_definitions (Specification_build main0 [segment0]))
       main0 <> main0.
Proof.
  repeat split; try reflexivity.
  vm_compute. discriminate.
Qed.

Lemma pyset_of_list_from_raises (l : list pyval) :
  forall acc e, pyset_of_list_from acc l = Raise e ->
                exists v, e = unhashable v.
Proof.
  induction l as [|v l IH]; intros acc e; simpl; [discriminate|].
  unfold pyset_add. destruct (hashable v).
  - apply IH.
  - intros [= <-]. now exists v.
Qed.

(** C2, what the code does: [Specification.get_varnames] raises [TypeError]
    on every specification.  Each definition's [get_varnames] returns a
    list, and the loop adds that list (unhashable) to the set with [add]
    where the union needs [update]; the main definition is always there, so
    the first iteration already raises. *)
Theorem C2_get_varnames_always_raises :
  (forall self : Specification,
      exists v, Specification_get_varnames self = Raise (unhashable v)) /\
  Specification_get_varnames (Specification_build main0 [segment0])
  = Raise (unhashable (PList [])).
Proof.
  split; [|reflexivity].
  intros self. unfold Specification_get_varnames,
    Specification_all_definitions. simpl.
  destruct (Definition_get_varnames (main self)) as [names|e] eqn:E; simpl.
  - now exists (PList names).
  - unfold Definition_get_varnames, pyset_of_list in E.
    apply pyset_of_list_from_raises in E. destruct E as [v ->].
    now exists v.
Qed.

(** ** Row sequence store *)

Section RowStack_facts.
Variable marker_text : str.

Lemma split_at_marker_complete (skipped : list Row) (r : Row)
  (rest : list Row) :
  Forall (fun x => Row_startswith x marker_text = false) skipped ->
  Row_startswith r marker_text = true ->
  split_at_marker marker_text (skipped ++ r :: rest)
  = Some (skipped, r :: rest).
Proof.
  intros Hs Hr. induction Hs as [|x xs Hx _ IH]; simpl.
  - now rewrite Hr.
  - now rewrite Hx, IH.
Qed.

Lemma split_at_marker_sound (rows skipped found : list Row) :
  split_at_marker marker_text rows = Some (skipped, found) ->
  exists r rest,
    rows = skipped ++ r :: rest /\ found = r :: rest /\
    Forall (fun x => Row_startswith x marker_text = false) skipped /\ Row_startswith r marker_text = true.
Proof.
  revert skipped found.
  induction rows as [|x rows IH]; intros skipped found; simpl;
    [discriminate|].
  destruct (Row_startswith x marker_text) eqn:Hx.
  - intros [= <- <-]. exists x, rows. repeat split; auto.
  - destruct (split_at_marker marker_text rows) as [[sk fd]|];
      [|discriminate].
    intros [= <- <-].
    destruct (IH sk fd eq_refl) as (r & rest & -> & -> & Hsk & Hr).
    exists r, rest. repeat split; auto.
Qed.
End RowStack_facts.

(** C3: [pop(start, end)] returns the run from the first row that starts
    with the start marker up to, and not including, the first subsequent row
    that starts with the end marker, and that row is the first of the
    remaining rows; every result of [pop] is of this form.  On the rows of
    the tests, [pop("bat", "dot")] returns [bat; can] and leaves
    [dot; wed; zed], and [pop("apt", "wed")] returns four rows and leaves
    [wed; zed]. *)
Theorem C3_pop_segment :
  (forall (start end_ : str) (before : list Row) (first : Row)
          (inside : list Row) (last_ : Row) (after : list Row),
      Forall (fun r => Row_startswith r start = false) before ->
      Row_startswith first start = true ->
      Forall (fun r => Row_startswith r end_ = false) inside ->
      Row_startswith last_ end_ = true ->
      RowStack_pop start end_ (before ++ first :: inside ++ last_ :: after)
      = Some (first :: inside, last_ :: after)) /\
  (forall (start end_ : str) (rows segment remaining : list Row),
      RowStack_pop start end_ rows = Some (segment, remaining) ->
      exists before first inside last_ after,
        rows = before ++ first :: inside ++ last_ :: after /\
        segment = first :: inside /\ remaining = last_ :: after /\
        Forall (fun r => Row_startswith r start = false) before /\
        Row_startswith first start = true /\
        Forall (fun r => Row_startswith r end_ = false) inside /\
        Row_startswith last_ end_ = true) /\
  RowStack_pop (u "bat") (u "dot") mock_rows
    = Some ([bat; can], [dot; wed; zed]) /\
  (exists segment,
      RowStack_pop (u "apt") (u "wed") mock_rows
        = Some (segment, [wed; zed]) /\
      List.length segment = 4).
Proof.
  split; [|split; [|split]].
  - intros start end_ before first inside last_ after Hb Hf Hi Hl.
    unfold RowStack_pop.
    rewrite (split_at_marker_complete start before first _ Hb Hf).
    now rewrite (split_at_marker_complete end_ inside last_ _ Hi Hl).
  - intros start end_ rows segment remaining. unfold RowStack_pop.
    destruct (split_at_marker start rows) as [[sk [|first found]]|] eqn:E1;
      try discriminate.
    destruct (split_at_marker end_ found) as [[inside rem]|] eqn:E2;
      [|discriminate].
    intros [= <- <-].
    apply split_at_marker_sound in E1.
    destruct E1 as (r & rest & -> & [= <- <-] & Hsk & Hr).
    apply split_at_marker_sound in E2.
    destruct E2 as (l & after & -> & -> & Hin & Hl).
    exists sk, first, inside, l, after. repeat split; auto.
  - reflexivity.
  - exists [apt; bat; can; dot]. split; reflexivity.
Qed.

(** C3 on the rows of the tests, through the general statement. *)
Lemma C3_pop_segment_witness :
  RowStack_pop (u "bat") (u "dot") ([apt] ++ bat :: [can] ++ dot :: [wed; zed])
  = Some (bat :: [can], dot :: [wed; zed]).
Proof.
  apply (proj1 C3_pop_segment (u "bat") (u "dot") [apt] bat [can] dot
               [wed; zed]).
  - repeat constructor.
  - reflexivity.
  - repeat constructor.
  - reflexivity.
Defined.

(** ** Row matching *)

(** The tests of [Row.startswith] and [Row.get_unit] hold of the model. *)
Example test_startswith_returns_bool :
  Row_startswith row1 (u "Объем ВВП") = true /\
  Row_startswith row2 (u "Объем ВВП") = false /\
  Row_startswith (mkRow (u "1.1 Объем ВВП") []) (u "Объем ВВП") = false.
Proof. repeat split. Qed.

Example test_startswith_ignores_apostrophe :
  Row_startswith row1 (u "Объем " ++ quoted (u "ВВП")) = true.
Proof. reflexivity. Qed.

Example test_get_unit :
  Row_get_unit (mkRow (u "Rate, %") []) [(u "%", u "pct")] = Some (u "pct").
Proof. reflexivity. Qed.

(** On the table of the source a label with a qualified rate of change
    resolves to the qualified unit: the longer pattern is declared first. *)
Example get_unit_UNITS_order :
  Row_get_unit
    (mkRow (u "период с начала отчетного года в % к соответствующему периоду предыдущего года") [])
    UNITS
  = Some (u "ytd").
Proof. reflexivity. Qed.

Lemma requotes_curly : requotes curly.
Proof.
  intros c. unfold curly, is_quote.
  destruct (c =? 34)%N eqn:E; simpl; [reflexivity|].
  rewrite E. simpl. now destruct ((c =? 8220) || (c =? 8221))%N.
Qed.

Lemma Row_varname_hits_filter (r : Row) (mapping : list (str * str)) :
  Row_varname_hits r mapping
  = map snd (filter (fun kv => Row_startswith r (fst kv)) mapping).
Proof.
  induction mapping as [|[k v] rest IH]; simpl; [reflexivity|].
  destruct (Row_startswith r k); simpl; now rewrite IH.
Qed.

(** C4: resolving a row's variable against a mapping from labels to
    variables, for every row and mapping: when no key is a prefix of the
    label the result is "not found" and no error; when exactly one key is,
    the result is that key's variable; when more than one is, the ambiguity
    error is raised.  With [{'1. a': 'X', '1. ab': 'Y'}] the label
    ["1. abcd"] is ambiguous, with [{'1. ab': 'X'}] it resolves to [X], with
    [{'bc': 'X'}] it is not found. *)
Theorem C4_get_varname :
  (forall (r : Row) (mapping : list (str * str)),
      let hits := filter (fun kv => Row_startswith r (fst kv)) mapping in
      (List.length hits = 0 -> Row_get_varname r mapping = Ok None) /\
      (forall k v, hits = [(k, v)] ->
                   Row_get_varname r mapping = Ok (Some v)) /\
      (List.length hits > 1 ->
       exists args, Row_get_varname r mapping = Raise (ValueError [] args))) /\
  (exists args,
      Row_get_varname (mkRow (u "1. abcd") [])
                      [(u "1. a", u "X"); (u "1. ab", u "Y")]
      = Raise (ValueError [] args)) /\
  Row_get_varname (mkRow (u "1. abcd") []) [(u "1. ab", u "X")]
    = Ok (Some (u "X")) /\
  Row_get_varname (mkRow (u "1. abcd") []) [(u "bc", u "X")] = Ok None.
Proof.
  split; [|split; [|split]].
  - intros r mapping hits. unfold Row_get_varname.
    rewrite Row_varname_hits_filter. fold hits.
    repeat split.
    + destruct hits; [reflexivity | discriminate].
    + intros k v ->. reflexivity.
    + destruct hits as [|h1 [|h2 hs]]; simpl; try lia.
      intros _. eexists. reflexivity.
  - eexists. reflexivity.
  - reflexivity.
  - reflexivity.
Qed.

(** C4 on the mapping of the tests with one matching key. *)
Lemma C4_get_varname_witness :
  Row_get_varname (mkRow (u "1. abcd") [])
                  [(u "bc", u "W"); (u "1. ab", u "ZZZ")]
  = Ok (Some (u "ZZZ")).
Proof.
  apply (proj1 (proj2 (proj1 C4_get_varname (mkRow (u "1. abcd") [])
                             [(u "bc", u "W"); (u "1. ab", u "ZZZ")]))
               (u "1. ab") (u "ZZZ")).
  reflexivity.
Defined.

Lemma Row_get_unit_first (r : Row) (lexicon : list (str * str))
  (code : str) :
  Row_get_unit r lexicon = Some code <->
  exists earlier k later,
    lexicon = earlier ++ (k, code) :: later /\
    str_contains (name r) k = true /\
    Forall (fun kc => str_contains (name r) (fst kc) = false) earlier.
Proof.
  induction lexicon as [|[k c] rest IH]; simpl.
  - split; [discriminate|].
    intros (earlier & k & later & H & _). now destruct earlier.
  - destruct (str_contains (name r) k) eqn:Hk.
    + split.
      * intros [= <-]. exists [], k, rest. auto.
      * intros (earlier & k' & later & H & Hk' & Hall).
        destruct earlier as [|[k0 c0] earlier]; simpl in H.
        -- now injection H as _ <- _.
        -- injection H as <- <- _. inversion Hall as [|? ? Hk0 _]; subst.
           simpl in Hk0. congruence.
    + rewrite IH. split.
      * intros (earlier & k' & later & -> & Hk' & Hall).
        exists ((k, c) :: earlier), k', later. repeat split; auto.
      * intros (earlier & k' & later & H & Hk' & Hall).
        destruct earlier as [|[k0 c0] earlier]; simpl in H.
        -- injection H as <- _ _. congruence.
        -- injection H as _ _ ->. inversion Hall; subst.
           exists earlier, k', later. auto.
Qed.

(** C5: unit resolution scans the patterns of the lexicon in declared order
    and returns the unit code of the first pattern that occurs in the label
    as a substring (there is text before and after it that makes up the
    label), and "not found" only when no pattern occurs; with the lexicon
    [('%', pct); ('% change', pct_chg)] the label ["1. abcd, % change"]
    resolves to [pct], not [pct_chg]. *)
Theorem C5_get_unit_first_pattern :
  (forall (r : Row) (lexicon : list (str * str)) (code : str),
      Row_get_unit r lexicon = Some code <->
      exists earlier k later,
        lexicon = earlier ++ (k, code) :: later /\
        (exists a b, name r = a ++ k ++ b) /\
        (forall k' c', In (k', c') earlier ->
                       ~ exists a b, name r = a ++ k' ++ b)) /\
  (forall (r : Row) (lexicon : list (str * str)),
      Row_get_unit r lexicon = None <->
      forall k c, In (k, c) lexicon -> ~ exists a b, name r = a ++ k ++ b) /\
  Row_get_unit (mkRow (u "1. abcd, % change") [])
               [(u "%", u "pct"); (u "% change", u "pct_chg")]
    = Some (u "pct") /\
  Row_get_unit (mkRow (u "1. abcd, % change") [])
               [(u "%", u "pct"); (u "% change", u "pct_chg")]
    <> Some (u "pct_chg").
Proof.
  split; [|split; [|split]].
  - intros r lexicon code. rewrite Row_get_unit_first. split.
    + intros (earlier & k & later & -> & Hk & Hall).
      exists earlier, k, later. repeat split; auto.
      * now apply str_contains_iff.
      * intros k' c' Hin Hocc. rewrite Forall_forall in Hall.
        apply Hall in Hin. simpl in Hin.
        apply str_contains_iff in Hocc. congruence.
    + intros (earlier & k & later & -> & Hk & Hall).
      exists earlier, k, later. repeat split; auto.
      * now apply str_contains_iff.
      * apply Forall_forall. intros [k' c'] Hin. simpl.
        destruct (str_contains (name r) k') eqn:E; [|reflexivity].
        exfalso. apply (Hall k' c' Hin). now apply str_contains_iff.
  - intros r lexicon. induction lexicon as [|[k c] rest IH]; simpl.
    + split; [intros _ k c [] | reflexivity].
    + destruct (str_contains (name r) k) eqn:Hk.
      * split; [discriminate|]. intros H. exfalso.
        apply (H k c); [now left | now apply str_contains_iff].
      * rewrite IH. split.
        -- intros H k' c' [[= <- <-]|Hin]; [|now apply (H k' c')].
           intros Hocc. apply str_contains_iff in Hocc. congruence.
        -- intros H k' c' Hin. apply (H k' c'). now right.
  - reflexivity.
  - vm_compute. discriminate.
Qed.

(** C5 on the lexicon of the tests. *)
Lemma C5_get_unit_first_pattern_witness :
  Row_get_unit (mkRow (u "Rate, % change") [])
               [(u "bln", u "bln_rub"); (u "%", u "pct");
                (u "% change", u "pct_chg")]
  = Some (u "pct").
Proof.
  apply (proj2 (proj1 C5_get_unit_first_pattern
                      (mkRow (u "Rate, % change") [])
                      [(u "bln", u "bln_rub"); (u "%", u "pct");
                       (u "% change", u "pct_chg")] (u "pct"))).
  exists [(u "bln", u "bln_rub")], (u "%"), [(u "% change", u "pct_chg")].
  split; [reflexivity|]. split.
  - exists (u "Rate, "), (u " change"). reflexivity.
  - intros k' c' [[= <- <-]|[]] (a & b & Hab).
    assert (H : str_contains (u "Rate, % change") (u "bln") = true)
      by (apply str_contains_iff; exists a, b; exact Hab).
    vm_compute in H. discriminate.
Defined.

(** ** Parsing instructions *)

Arguments py_in : simpl never.


Lemma verify_units_unknown (rus : list pyval) :
  forallb (fun ru => py_in ru UNITS_values) rus = false ->
  exists ru,
    In ru rus /\ py_in ru UNITS_values = false /\
    verify_units rus = Raise (ValueError (u "Unit <{}> not defined") [ru]).
Proof.
  induction rus as [|ru rus IH]; simpl; [discriminate|].
  destruct (py_in ru UNITS_values) eqn:E; simpl.
  - intros H. destruct (IH H) as (ru' & Hin & Hun & Hv). eauto 6.
  - intros _. exists ru. auto.
Qed.

Lemma verify_inputs_ok (self : ParsingInstruction)
  (varname required_units : pyval) :
  ParsingInstruction__verify_inputs self varname required_units = Ok tt ->
  py_in varname (odict_values (varname_mapper self)) = false /\
  exists rus, as_list required_units = Ok rus /\
              forallb (fun ru => py_in ru UNITS_values) rus = true.
Proof.
  unfold ParsingInstruction__verify_inputs.
  destruct (py_in varname _); [discriminate|].
  destruct (as_list required_units) as [rus|e]; simpl; [|discriminate].
  intros H. split; [reflexivity|]. exists rus. split; [reflexivity|].
  destruct (forallb _ rus) eqn:E; [reflexivity|].
  destruct (verify_units_unknown _ E) as (ru & _ & _ & Hv). congruence.
Qed.

Lemma odict_of_pairs_from_hashable (pairs : list (pyval * pyval)) :
  forallb (fun kv => hashable (fst kv)) pairs = true ->
  forall acc, exists d, odict_of_pairs_from acc pairs = Ok d.
Proof.
  induction pairs as [|[k v] rest IH]; simpl; intros H acc.
  - now exists acc.
  - apply andb_true_iff in H. destruct H as [-> H]. now apply IH.
Qed.

(** What [append] does once its arguments have passed validation and
    conversion. *)
Lemma append_valid (self : ParsingInstruction)
  (varname text required_units desc : pyval)
  (rus header_strings : list pyval) (desc0 : pyval) :
  ParsingInstruction__verify_inputs self varname required_units = Ok tt ->
  as_list required_units = Ok rus ->
  as_list text = Ok header_strings ->
  (if is_False desc then list_first header_strings else Ok desc) = Ok desc0 ->
  hashable varname = true ->
  forallb hashable header_strings = true ->
  exists vmapper,
    odict_of_pairs (map (fun hs => (hs, varname)) header_strings)
      = Ok vmapper /\
    ParsingInstruction_append varname text required_units desc self
    = (Ok tt,
       {| varname_mapper := odict_update (varname_mapper self) vmapper;
          required_labels :=
            required_labels self ++ map (fun unit => (varname, unit)) rus;
          descriptions := odict_set (descriptions self) varname desc0 |}).
Proof.
  intros Hv Hru Ht Hd Hh Hhs.
  destruct (odict_of_pairs_from_hashable
              (map (fun hs => (hs, varname)) header_strings)) with (acc := @nil (pyval * pyval))
    as [vmapper Hvm].
  { rewrite forallb_forall in *. intros [k v] Hin.
    apply in_map_iff in Hin. destruct Hin as (hs & [= <- <-] & Hin).
    simpl. auto. }
  exists vmapper. split; [exact Hvm|].
  unfold ParsingInstruction_append, mbind, lift, this, mret, mutate.
  rewrite Hv, Ht. cbv beta iota.
  revert Hd. destruct (is_False desc); cbv beta;
    [intros -> | intros [= <-]]; rewrite Hru;
    unfold odict_of_pairs in *; rewrite Hvm; cbn [odict_of_pairs_from];
    rewrite Hh; reflexivity.
Qed.

(** [append] either raises and leaves the instruction as it was, or
    returns. *)
Lemma append_raise_unchanged (self : ParsingInstruction)
  (varname text required_units desc : pyval) (e : exn)
  (self' : ParsingInstruction) :
  ParsingInstruction_append varname text required_units desc self
  = (Raise e, self') ->
  self' = self.
Proof.
  unfold ParsingInstruction_append, mbind, lift, this, mret, mutate.
  destruct (ParsingInstruction__verify_inputs self varname required_units);
    [|now intros [= _ <-]].
  destruct (as_list text) as [header_strings|]; [|now intros [= _ <-]].
  cbv beta iota.
  destruct (is_False desc); cbv beta.
  - destruct (list_first header_strings); [|now intros [= _ <-]].
    destruct (as_list required_units); [|now intros [= _ <-]].
    destruct (odict_of_pairs _); [|now intros [= _ <-]].
    destruct (odict_of_pairs _); [discriminate | now intros [= _ <-]].
  - destruct (as_list required_units); [|now intros [= _ <-]].
    destruct (odict_of_pairs _); [|now intros [= _ <-]].
    destruct (odict_of_pairs _); [discriminate | now intros [= _ <-]].
Qed.

(** C8: [append] is atomic on error: for every instruction and every
    combination of arguments on which it raises (a duplicate variable name,
    an unknown unit code, an argument of an invalid type, or any other
    error), [varname_mapper], [required_labels] and [descriptions] are
    exactly as they were before the call. *)
Theorem C8_append_atomic_on_error :
  forall (self : ParsingInstruction)
         (varname text required_units desc : pyval) (e : exn)
         (self' : ParsingInstruction),
    ParsingInstruction_append varname text required_units desc self
    = (Raise e, self') ->
    varname_mapper self' = varname_mapper self /\
    required_labels self' = required_labels self /\
    descriptions self' = descriptions self.
Proof.
  intros self varname text required_units desc e self' H.
  apply append_raise_unchanged in H. now subst.
Qed.

(** C8 on a second [append] of the variable GDP, with an argument of an
    invalid type on top. *)
Lemma C8_append_atomic_on_error_witness :
  let self' :=
    snd (ParsingInstruction_append (PStr (u "GDP")) (PInt 1) PNone no_desc
                                   gdp_instr) in
  varname_mapper self' = varname_mapper gdp_instr /\
  required_labels self' = required_labels gdp_instr /\
  descriptions self' = descriptions gdp_instr.
Proof.
  apply (C8_append_atomic_on_error gdp_instr (PStr (u "GDP")) (PInt 1) PNone
           no_desc
           (ValueError (u "Variable name <{}> already defined")
                       [PStr (u "GDP")])).
  vm_compute. reflexivity.
Defined.

(** What the instruction is after an [append] that returned. *)
Lemma append_ok_inv (self : ParsingInstruction)
  (varname text required_units desc : pyval) (self' : ParsingInstruction) :
  ParsingInstruction_append varname text required_units desc self
  = (Ok tt, self') ->
  exists rus header_strings desc0 vmapper,
    ParsingInstruction__verify_inputs self varname required_units = Ok tt /\
    as_list required_units = Ok rus /\
    as_list text = Ok header_strings /\
    (if is_False desc then list_first header_strings else Ok desc)
      = Ok desc0 /\
    hashable varname = true /\
    self' = {| varname_mapper := odict_update (varname_mapper self) vmapper;
               required_labels :=
                 required_labels self
                   ++ map (fun unit => (varname, unit)) rus;
               descriptions := odict_set (descriptions self) varname desc0 |}.
Proof.
  unfold ParsingInstruction_append, mbind, lift, this, mret, mutate.
  destruct (ParsingInstruction__verify_inputs self varname required_units)
    as [[]|] eqn:Ev; [|discriminate].
  destruct (as_list text) as [header_strings|] eqn:Et; [|discriminate].
  cbv beta iota.
  assert (Hdict : forall desc0 d,
             odict_of_pairs [(varname, desc0)] = Ok d ->
             hashable varname = true /\ d = [(varname, desc0)]).
  { intros desc0 d. unfold odict_of_pairs. simpl.
    destruct (hashable varname); [|discriminate]. now intros [= <-]. }
  destruct (is_False desc); cbv beta.
  - destruct (list_first header_strings) as [desc0|] eqn:Ef; [|discriminate].
    destruct (as_list required_units) as [rus|] eqn:Er; [|discriminate].
    destruct (odict_of_pairs _) as [vmapper|]; [|discriminate].
    destruct (odict_of_pairs _) as [d|] eqn:Ed; [|discriminate].
    destruct (Hdict _ _ Ed) as [Hh ->]. intros [= <-].
    exists rus, header_strings, desc0, vmapper. repeat split; auto.
  - destruct (as_list required_units) as [rus|] eqn:Er; [|discriminate].
    destruct (odict_of_pairs _) as [vmapper|]; [|discriminate].
    destruct (odict_of_pairs _) as [d|] eqn:Ed; [|discriminate].
    destruct (Hdict _ _ Ed) as [Hh ->]. intros [= <-].
    exists rus, header_strings, desc, vmapper. repeat split; auto.
Qed.

(** C9: when [append] is called without a description, the description of
    the variable is the first header string of the label text made a list:
    the text itself when it is a string, its first element when it is a
    list or a tuple.  After such a call has returned, [descriptions] maps
    the variable name to it; and on arguments that pass validation the call
    does return, for a string [t] with [descriptions] mapping [v] to [t],
    for a list or tuple of (hashable) labels with [descriptions] mapping [v]
    to the first of them. *)
Theorem C9_append_default_description :
  (forall (self : ParsingInstruction) (varname text required_units : pyval)
          (self' : ParsingInstruction),
      ParsingInstruction_append varname text required_units no_desc self
      = (Ok tt, self') ->
      exists first,
        odict_get (descriptions self') varname = Some first /\
        ((exists t, text = PStr t /\ first = text) \/
         (exists rest, text = PList (first :: rest)) \/
         (exists rest, text = PTuple (first :: rest)))) /\
  (forall (self : ParsingInstruction) (varname required_units : pyval)
          (t : str),
      ParsingInstruction__verify_inputs self varname required_units = Ok tt ->
      hashable varname = true ->
      exists self',
        ParsingInstruction_append varname (PStr t) required_units no_desc self
        = (Ok tt, self') /\
        odict_get (descriptions self') varname = Some (PStr t)) /\
  (forall (self : ParsingInstruction) (varname required_units : pyval)
          (first : pyval) (rest : list pyval),
      ParsingInstruction__verify_inputs self varname required_units = Ok tt ->
      hashable varname = true ->
      forallb hashable (first :: rest) = true ->
      (exists self',
          ParsingInstruction_append varname (PList (first :: rest))
                                    required_units no_desc self
          = (Ok tt, self') /\
          odict_get (descriptions self') varname = Some first) /\
      (exists self',
          ParsingInstruction_append varname (PTuple (first :: rest))
                                    required_units no_desc self
          = (Ok tt, self') /\
          odict_get (descriptions self') varname = Some first)).
Proof.
  split; [|split].
  - intros self varname text required_units self' H.
    apply append_ok_inv in H.
    destruct H as (rus & hs & desc0 & vm & _ & _ & Ht & Hd & _ & ->).
    simpl in Hd. destruct hs as [|h rest]; [discriminate|].
    injection Hd as <-. exists h. split.
    + simpl. apply odict_get_set_same.
    + destruct text; try discriminate; simpl in Ht.
      * left. injection Ht as <-. eauto.
      * right. left. injection Ht as ->. eauto.
      * right. right. injection Ht as ->. eauto.
  - intros self varname required_units t Hv Hh.
    destruct (verify_inputs_ok _ _ _ Hv) as (_ & rus & Hru & _).
    destruct (append_valid self varname (PStr t) required_units no_desc
                rus [PStr t] (PStr t) Hv Hru eq_refl eq_refl Hh eq_refl)
      as (vm & _ & Happ).
    eexists. split; [exact Happ|]. simpl. apply odict_get_set_same.
  - intros self varname required_units first rest Hv Hh Hhs.
    destruct (verify_inputs_ok _ _ _ Hv) as (_ & rus & Hru & _).
    split.
    + destruct (append_valid self varname (PList (first :: rest))
                  required_units no_desc rus (first :: rest) first
                  Hv Hru eq_refl eq_refl Hh Hhs) as (vm & _ & Happ).
      eexists. split; [exact Happ|]. simpl. apply odict_get_set_same.
    + destruct (append_valid self varname (PTuple (first :: rest))
                  required_units no_desc rus (first :: rest) first
                  Hv Hru eq_refl eq_refl Hh Hhs) as (vm & _ & Happ).
      eexists. split; [exact Happ|]. simpl. apply odict_get_set_same.
Qed.

(** C9 on two calls of the source after the instruction for GDP:
    [append("WAGE_NOMINAL", "Среднемесячная ...", "rub")] with a string and
    [append("EXPORT_GOODS", ["экспорт товаров – всего", "Экспорт товаров"],
    "bln_usd")] with a list of labels. *)
Lemma C9_append_default_description_witness :
  (exists self',
      ParsingInstruction_append
        (PStr (u "WAGE_NOMINAL"))
        (PStr (u "Среднемесячная номинальная начисленная заработная плата работников организаций"))
        (PStr (u "rub")) no_desc gdp_instr
      = (Ok tt, self') /\
      odict_get (descriptions self') (PStr (u "WAGE_NOMINAL"))
      = Some (PStr (u "Среднемесячная номинальная начисленная заработная плата работников организаций"))) /\
  (exists self',
      ParsingInstruction_append
        (PStr (u "EXPORT_GOODS"))
        (PList (PStr (u "экспорт товаров – всего")
                  :: [PStr (u "Экспорт товаров")]))
        (PStr (u "bln_usd")) no_desc gdp_instr
      = (Ok tt, self') /\
      odict_get (descriptions self') (PStr (u "EXPORT_GOODS"))
      = Some (PStr (u "экспорт товаров – всего"))).
Proof.
  split.
  - apply (proj1 (proj2 C9_append_default_description) gdp_instr
                 (PStr (u "WAGE_NOMINAL")) (PStr (u "rub"))).
    + vm_compute. reflexivity.
    + reflexivity.
  - apply (proj1 (proj2 (proj2 C9_append_default_description) gdp_instr
                    (PStr (u "EXPORT_GOODS")) (PStr (u "bln_usd"))
                    (PStr (u "экспорт товаров – всего"))
                    [PStr (u "Экспорт товаров")]
                    ltac:(vm_compute; reflexivity) eq_refl eq_refl)).
Defined.

(** ** Scope *)

Section Scope_facts.
Variable rows : list Row.

Lemma is_found_iff (line : str) :
  Scope__is_found line rows = true <->
  exists r, In r rows /\ Row_startswith r line = true.
Proof.
  induction rows as [|x xs IH]; simpl.
  - split; [discriminate | intros (r & [] & _)].
  - destruct (Row_startswith x line) eqn:Hx.
    + split; [|reflexivity]. intros _. exists x. auto.
    + rewrite IH. split.
      * intros (r & Hin & Hr). exists r. auto.
      * intros (r & [<-|Hin] & Hr); [congruence|]. exists r. auto.
Qed.

Lemma first_bounds_some (markers : list marker) (s e : str) :
  first_bounds markers rows = Some (s, e) <->
  exists earlier later,
    markers = earlier ++ mkMarker s e :: later /\
    both_found rows (mkMarker s e) = true /\
    Forall (fun mk => both_found rows mk = false) earlier.
Proof.
  induction markers as [|[s0 e0] rest IH]; simpl.
  - split; [discriminate|]. intros (earlier & later & H & _).
    now destruct earlier.
  - change (Scope__is_found s0 rows && Scope__is_found e0 rows)
      with (both_found rows (mkMarker s0 e0)).
    destruct (both_found rows (mkMarker s0 e0)) eqn:Hb.
    + split.
      * intros [= <- <-]. exists [], rest. auto.
      * intros (earlier & later & H & Hse & Hall).
        destruct earlier as [|m earlier]; simpl in H.
        -- now injection H as <- <- _.
        -- injection H as <- _. inversion Hall; subst. congruence.
    + rewrite IH. split.
      * intros (earlier & later & -> & Hse & Hall).
        exists (mkMarker s0 e0 :: earlier), later. auto.
      * intros (earlier & later & H & Hse & Hall).
        destruct earlier as [|m earlier]; simpl in H.
        -- injection H as <- <- _. congruence.
        -- injection H as _ ->. inversion Hall; subst.
           exists earlier, later. auto.
Qed.

Lemma first_bounds_none (markers : list marker) :
  Forall (fun mk => both_found rows mk = false) markers ->
  first_bounds markers rows = None.
Proof.
  induction 1 as [|mk rest Hmk _ IH]; simpl; [reflexivity|].
  unfold both_found in Hmk. now rewrite Hmk.
Qed.

Lemma error_message_fold (markers : list marker) (msg : list str) :
  fold_left
    (fun msg mk =>
       let s := marker_start mk in
       let e := marker_end mk in
       let msg := msg ++ [format_is_found (Scope__is_found s rows) s] in
       msg ++ [format_is_found (Scope__is_found e rows) e])
    markers msg
  = msg ++ flat_map (marker_report rows) markers.
Proof.
  revert msg. induction markers as [|mk rest IH]; intros msg.
  - simpl. now rewrite app_nil_r.
  - cbn [fold_left flat_map]. rewrite IH. unfold marker_report at 2.
    now rewrite <- !app_assoc.
Qed.

Lemma error_message_lines (markers : list marker) :
  Scope__error_message markers rows
  = str_join [10%N]
      (u "start or end line not found in *rows*"
         :: flat_map (marker_report rows) markers).
Proof.
  unfold Scope__error_message. cbv zeta. now rewrite error_message_fold.
Qed.
End Scope_facts.

Lemma Row_startswith_iff (r : Row) (line : str) :
  Row_startswith r line = true <->
  exists rest, normalize_quotes (name r) = normalize_quotes line ++ rest.
Proof.
  unfold Row_startswith. apply str_startswith_iff.
Qed.

Lemma is_found_present (line : str) (rows : list Row) :
  Scope__is_found line rows = true <-> present line rows.
Proof.
  rewrite is_found_iff. unfold present. split.
  - intros (r & Hin & Hr). exists r. split; [exact Hin|].
    now apply Row_startswith_iff.
  - intros (r & Hin & Hr). exists r. split; [exact Hin|].
    now apply Row_startswith_iff.
Qed.

Lemma both_found_present (rows : list Row) (mk : marker) :
  both_found rows mk = true <->
  present (marker_start mk) rows /\ present (marker_end mk) rows.
Proof.
  unfold both_found. now rewrite andb_true_iff, !is_found_present.
Qed.

Lemma normalize_requoted (f : N -> N) (s : str) :
  requotes f -> normalize_quotes (map f s) = normalize_quotes s.
Proof.
  intros Hf. unfold normalize_quotes.
  induction s as [|c s IH]; simpl; [reflexivity|].
  specialize (Hf c). destruct (is_quote c) eqn:Hc.
  - rewrite Hf. simpl. exact IH.
  - rewrite Hf, Hc. simpl. now rewrite IH.
Qed.

Lemma is_found_requoted_line (f : N -> N) (line : str) (rows : list Row) :
  requotes f ->
  Scope__is_found (map f line) rows = Scope__is_found line rows.
Proof.
  intros Hf. induction rows as [|r rs IH]; simpl; [reflexivity|].
  unfold Row_startswith.
  now rewrite (normalize_requoted f line Hf), IH.
Qed.

Lemma is_found_requoted_rows (f : N -> N) (line : str) (rows : list Row) :
  requotes f ->
  Scope__is_found line (map (fun r => mkRow (map f (name r)) (data r)) rows)
  = Scope__is_found line rows.
Proof.
  intros Hf. induction rows as [|r rs IH]; simpl; [reflexivity|].
  unfold Row_startswith. simpl name.
  now rewrite (normalize_requoted f (name r) Hf), IH.
Qed.

Lemma str_join_lines (first : str) (lines : list str) :
  str_join [10%N] (first :: lines)
  = first ++ flat_map (fun line => 10%N :: line) lines.
Proof.
  revert first. induction lines as [|l lines IH]; intros first.
  - simpl. now rewrite app_nil_r.
  - change (str_join [10%N] (first :: l :: lines))
      with (first ++ [10%N] ++ str_join [10%N] (l :: lines)).
    rewrite IH. reflexivity.
Qed.

(** The text of the error message of [get_bounds], character by
    character. *)
Lemma error_message_text (markers : list marker) (rows : list Row) :
  Scope__error_message markers rows
  = u "start or end line not found in *rows*"
      ++ flat_map
           (fun mk =>
              (10%N :: u "is_found: ")
                ++ (if Scope__is_found (marker_start mk) rows
                    then u "True" else u "False")
                ++ u " <" ++ marker_start mk ++ u ">"
                ++ (10%N :: u "is_found: ")
                ++ (if Scope__is_found (marker_end mk) rows
                    then u "True" else u "False")
                ++ u " <" ++ marker_end mk ++ u ">")
           markers.
Proof.
  rewrite error_message_lines, str_join_lines. f_equal.
  induction markers as [|mk rest IH]; [reflexivity|].
  cbn [flat_map].
  etransitivity; [apply flat_map_app|]. f_equal; [|exact IH].
  unfold marker_report, format_is_found, str_of_bool.
  cbn [flat_map app]. rewrite app_nil_r.
  repeat (rewrite <- app_assoc; cbn [app]). reflexivity.
Qed.

(** C7: [get_bounds] tries the (start, end) alternatives of the scope in
    declared order and returns the first pair of which both markers are
    present, a marker being present iff the label of some row begins with
    it, straight and curly quote characters being treated alike (all are
    left out of both texts); when no alternative has both markers present
    it raises an error whose message is the line
    [start or end line not found in *rows*] followed, for every alternative
    in order, by the two lines [is_found: True <marker>] or
    [is_found: False <marker>] for its start and its end marker, the flag
    saying whether the marker is present. *)
Theorem C7_get_bounds :
  forall (self : Scope) (rows : list Row),
    (forall line, Scope__is_found line rows = true <-> present line rows) /\
    (forall s e,
        Scope_get_bounds self rows = Ok (s, e) <->
        exists earlier later,
          self = earlier ++ mkMarker s e :: later /\
          present s rows /\ present e rows /\
          forall mk, In mk earlier ->
                     ~ (present (marker_start mk) rows /\
                        present (marker_end mk) rows)) /\
    ((forall mk, In mk self ->
                 ~ (present (marker_start mk) rows /\
                    present (marker_end mk) rows)) ->
     Scope_get_bounds self rows
     = Raise (ValueError
                (u "start or end line not found in *rows*"
                   ++ flat_map
                        (fun mk =>
                           (10%N :: u "is_found: ")
                             ++ (if Scope__is_found (marker_start mk) rows
                                 then u "True" else u "False")
                             ++ u " <" ++ marker_start mk ++ u ">"
                             ++ (10%N :: u "is_found: ")
                             ++ (if Scope__is_found (marker_end mk) rows
                                 then u "True" else u "False")
                             ++ u " <" ++ marker_end mk ++ u ">")
                        self)
                [])) /\
    (forall f line,
        requotes f ->
        Scope__is_found (map f line) rows = Scope__is_found line rows /\
        Scope__is_found line
          (map (fun r => mkRow (map f (name r)) (data r)) rows)
        = Scope__is_found line rows) /\
    is_quote 34 = true /\ is_quote 8220 = true /\ is_quote 8221 = true.
Proof.
  intros self rows.
  assert (Hnot : forall l : list marker,
             (forall mk, In mk l ->
                         ~ (present (marker_start mk) rows /\
                            present (marker_end mk) rows)) <->
             Forall (fun mk => both_found rows mk = false) l).
  { intros l. rewrite Forall_forall. split; intros H mk Hin.
    - destruct (both_found rows mk) eqn:E; [|reflexivity].
      apply both_found_present in E. now destruct (H mk Hin).
    - intros Hp. apply both_found_present in Hp.
      rewrite (H mk Hin) in Hp. discriminate. }
  split; [|split; [|split; [|split]]].
  - intros line. apply is_found_present.
  - intros s e. unfold Scope_get_bounds. split.
    + destruct (first_bounds self rows) as [[s' e']|] eqn:E; [|discriminate].
      intros [= -> ->]. apply first_bounds_some in E.
      destruct E as (earlier & later & -> & Hse & Hall).
      apply both_found_present in Hse. destruct Hse as [Hs He].
      exists earlier, later. repeat split; auto. now apply Hnot.
    + intros (earlier & later & Hself & Hs & He & Hall).
      assert (E : first_bounds self rows = Some (s, e)).
      { apply first_bounds_some. exists earlier, later.
        repeat split; auto.
        - now apply both_found_present.
        - now apply Hnot. }
      now rewrite E.
  - intros Hall. unfold Scope_get_bounds.
    rewrite first_bounds_none by now apply Hnot.
    now rewrite error_message_text.
  - intros f line Hf. split.
    + now apply is_found_requoted_line.
    + now apply is_found_requoted_rows.
  - repeat split.
Qed.

(** C7 on the investment segment: on the rows of a release that numbers
    it 1.7 the markers of the first alternative are not both present and
    those of the second are returned; on rows without the end line the
    error lists both alternatives, with the start marker of the second as
    found. *)
Lemma C7_get_bounds_witness :
  Scope_get_bounds investment_scope investment_rows
  = Ok (u "1.7. Инвестиции в основной капитал",
        u "1.7.1. Инвестиции в основной капитал организаций") /\
  Scope_get_bounds investment_scope investment_rows_cut
  = Raise (ValueError
             (u "start or end line not found in *rows*"
                ++ 10%N :: u "is_found: False <1.6. Инвестиции в основной капитал>"
                ++ 10%N :: u "is_found: False <1.6.1. Инвестиции в основной капитал организаций>"
                ++ 10%N :: u "is_found: True <1.7. Инвестиции в основной капитал>"
                ++ 10%N :: u "is_found: False <1.7.1. Инвестиции в основной капитал организаций>")
             []).
Proof.
  split.
  - apply (proj2 (proj1 (proj2 (C7_get_bounds investment_scope
                                  investment_rows))
                        (u "1.7. Инвестиции в основной капитал")
                        (u "1.7.1. Инвестиции в основной капитал организаций"))).
    exists [mkMarker (u "1.6. Инвестиции в основной капитал")
                     (u "1.6.1. Инвестиции в основной капитал организаций")],
           [].
    split; [reflexivity|]. split; [|split].
    + exists (mkRow (u "1.7. Инвестиции в основной капитал, млрд.рублей") []).
      split; [right; left; reflexivity|].
      exists (u ", млрд.рублей"). vm_compute. reflexivity.
    + exists (mkRow (u "1.7.1. Инвестиции в основной капитал организаций") []).
      split; [do 3 right; left; reflexivity|].
      exists []. vm_compute. reflexivity.
    + intros mk [<-|[]] [H _].
      apply (proj2 (proj1 (C7_get_bounds investment_scope investment_rows) _))
        in H.
      vm_compute in H. discriminate.
  - refine (eq_trans
              (proj1 (proj2 (proj2 (C7_get_bounds investment_scope
                                      investment_rows_cut))) _) _).
    + intros mk [<-|[<-|[]]] [_ H];
        apply (proj2 (proj1 (C7_get_bounds investment_scope
                               investment_rows_cut) _)) in H;
        vm_compute in H; discriminate.
    + vm_compute. reflexivity.
Defined.

(** ** Definitions without a scope *)

(** C10: for a [Definition] constructed without a scope, [get_bounds]
    raises an error ([AttributeError]: the attribute [scope] is [False])
    for every [rows], and it still does after any [append]. *)
Theorem C10_get_bounds_without_scope :
  forall (FUNC_MAPPER_keys : list str) (reader_arg : option str)
         (self : DefinitionT) (rows : list Row),
    Definition_init FUNC_MAPPER_keys None reader_arg = Ok self ->
    Definition_get_bounds self rows
    = Raise (AttributeError (u "'bool' object has no attribute 'get_bounds'"))
    /\
    forall varname text required_units desc,
      Definition_get_bounds
        (snd (Definition_append self varname text required_units desc)) rows
      = Raise (AttributeError
                 (u "'bool' object has no attribute 'get_bounds'")).
Proof.
  intros keys reader_arg self rows H.
  assert (Hs : scope self = None).
  { unfold Definition_init in H.
    destruct reader_arg as [[|c funcname]|]; simpl in H;
      try (injection H as <-; reflexivity).
    unfold Definition_set_reader in H.
    destruct (existsb _ keys); [|discriminate].
    injection H as <-. reflexivity. }
  split.
  - unfold Definition_get_bounds. now rewrite Hs.
  - intros varname text required_units desc.
    unfold Definition_get_bounds, Definition_append.
    destruct (ParsingInstruction_append _ _ _ _ _) as [r instr'].
    simpl. now rewrite Hs.
Qed.

(** C10 on [Definition()] and the rows of the tests. *)
Lemma C10_get_bounds_without_scope_witness :
  Definition_get_bounds main0 mock_rows
  = Raise (AttributeError (u "'bool' object has no attribute 'get_bounds'")).
Proof.
  apply (proj1 (C10_get_bounds_without_scope [] None main0 mock_rows
                  eq_refl)).
Defined.

(** * Further properties *)

(** ** Equality of Python values is an equivalence *)

Lemma py_eq_PList (l1 l2 : list pyval) :
  py_eq (PList l1) (PList l2) = all2b py_eq l1 l2.
Proof.
  revert l2. induction l1 as [|x xs IH]; intros [|y ys]; try reflexivity.
  simpl in *. now rewrite <- IH.
Qed.

Lemma py_eq_PTuple (l1 l2 : list pyval) :
  py_eq (PTuple l1) (PTuple l2) = all2b py_eq l1 l2.
Proof.
  revert l2. induction l1 as [|x xs IH]; intros [|y ys]; try reflexivity.
  simpl in *. now rewrite <- IH.
Qed.

Lemma all2b_sym (l1 : list pyval) :
  Forall (fun x => forall y, py_eq x y = py_eq y x) l1 ->
  forall l2, all2b py_eq l1 l2 = all2b py_eq l2 l1.
Proof.
  induction 1 as [|x xs Hx _ IH]; intros [|y ys]; try reflexivity.
  simpl. now rewrite Hx, IH.
Qed.

Lemma str_eqb_sym (a b : str) : str_eqb a b = str_eqb b a.
Proof.
  unfold str_eqb.
  destruct (list_eq_dec N.eq_dec a b), (list_eq_dec N.eq_dec b a);
    congruence.
Qed.

Lemma py_eq_sym (a b : pyval) : py_eq a b = py_eq b a.
Proof.
  revert b.
  induction a as [| x | x | x | l IH | l IH] using pyval_nested_ind;
    intros [| y | y | y | l' | l']; try reflexivity.
  - now destruct x, y.
  - simpl. apply Z.eqb_sym.
  - simpl. apply Z.eqb_sym.
  - simpl. apply Z.eqb_sym.
  - simpl. apply str_eqb_sym.
  - rewrite !py_eq_PList. now apply all2b_sym.
  - rewrite !py_eq_PTuple. now apply all2b_sym.
Qed.

Lemma all2b_trans (l1 : list pyval) :
  Forall (fun x => forall y z, py_eq x y = true -> py_eq y z = true ->
                               py_eq x z = true) l1 ->
  forall l2 l3, all2b py_eq l1 l2 = true -> all2b py_eq l2 l3 = true ->
                all2b py_eq l1 l3 = true.
Proof.
  induction 1 as [|x xs Hx _ IH]; intros [|y ys] [|z zs]; simpl;
    try discriminate; auto.
  rewrite !andb_true_iff. intros [H1 H2] [H3 H4]. eauto.
Qed.

Lemma py_eq_trans (a b c : pyval) :
  py_eq a b = true -> py_eq b c = true -> py_eq a c = true.
Proof.
  revert b c.
  induction a as [| x | x | x | l IH | l IH] using pyval_nested_ind;
    intros [| y | y | y | l' | l'] [| z | z | z | l'' | l''];
    try discriminate; try (intros; assumption);
    try (rewrite !py_eq_PList; now apply all2b_trans);
    try (rewrite !py_eq_PTuple; now apply all2b_trans);
    simpl; rewrite ?Z.eqb_eq, ?str_eqb_eq;
    try (destruct x); try (destruct y); try (destruct z); simpl;
    try discriminate; try congruence; try lia.
Qed.

(** Two equal keys are the same key of a dictionary. *)
Lemma py_eq_compat (k k' x : pyval) :
  py_eq k k' = true -> py_eq x k = py_eq x k'.
Proof.
  intros H. destruct (py_eq x k) eqn:E1, (py_eq x k') eqn:E2; auto.
  - rewrite (py_eq_trans _ _ _ E1 H) in E2. discriminate.
  - rewrite py_eq_sym in H. rewrite (py_eq_trans _ _ _ E2 H) in E1.
    discriminate.
Qed.

(** ** Dictionaries: lookup after update *)

Lemma odict_get_set (d : odict) (k v k' : pyval) :
  odict_get (odict_set d k v) k'
  = if py_eq k k' then Some v else odict_get d k'.
Proof.
  induction d as [|[k0 v0] d IH]; simpl; [reflexivity|].
  destruct (py_eq k0 k) eqn:E; simpl.
  - assert (H : py_eq k0 k' = py_eq k k').
    { rewrite (py_eq_sym k0 k'), (py_eq_sym k k').
      symmetry. apply py_eq_compat. now rewrite py_eq_sym. }
    rewrite H. now destruct (py_eq k k').
  - rewrite IH. destruct (py_eq k0 k') eqn:E'; [|reflexivity].
    destruct (py_eq k k') eqn:E''; [|reflexivity].
    rewrite py_eq_sym in E''. rewrite (py_eq_trans _ _ _ E' E'') in E.
    discriminate.
Qed.

Lemma odict_set_entries (d : odict) (k v : pyval) (kv : pyval * pyval) :
  In kv (odict_set d k v) ->
  (In kv d \/ snd kv = v) /\ (In (fst kv) (map fst d) \/ fst kv = k).
Proof.
  induction d as [|[k0 v0] d IH]; simpl.
  - intros [<-|[]]. simpl. auto.
  - destruct (py_eq k0 k); simpl.
    + intros [<-|H]; simpl; [intuition auto|].
      split; [auto | left; right; now apply in_map].
    + intros [<-|H]; simpl; [intuition auto|].
      destruct (IH H) as [[?|?] [?|?]]; intuition auto.
Qed.

Lemma odict_update_entries (d2 d : odict) (kv : pyval * pyval) :
  In kv (odict_update d d2) ->
  (In kv d \/ In (snd kv) (map snd d2)) /\
  (In (fst kv) (map fst d) \/ In (fst kv) (map fst d2)).
Proof.
  unfold odict_update. revert d.
  induction d2 as [|[k v] d2 IH]; intros d; simpl.
  { intros H. split; left; [assumption | now apply in_map]. }
  intros H. apply IH in H. destruct H as [H1 H2]. split.
  - destruct H1 as [H1|H1]; [|auto].
    apply odict_set_entries in H1. simpl in H1. destruct H1 as [[?|?] _]; auto.
  - destruct H2 as [H2|H2]; [|auto].
    apply in_map_iff in H2. destruct H2 as (kv' & Hf & Hin).
    apply odict_set_entries in Hin. simpl in Hin.
    rewrite <- Hf. destruct Hin as [_ [Hin|Hin]]; [now left|].
    right. left. now symmetry.
Qed.

Lemma odict_update_get_other (d2 d : odict) (k : pyval) :
  Forall (fun kv => py_eq (fst kv) k = false) d2 ->
  odict_get (odict_update d d2) k = odict_get d k.
Proof.
  unfold odict_update. intros H. revert d.
  induction H as [|[k1 v1] d2 H1 _ IH]; intros d; simpl; [reflexivity|].
  rewrite IH, odict_get_set. simpl in H1. now rewrite H1.
Qed.

Lemma odict_update_get_const (d2 d : odict) (k v : pyval) :
  Forall (fun kv => snd kv = v) d2 ->
  odict_get d k = Some v \/ Exists (fun kv => py_eq (fst kv) k = true) d2 ->
  odict_get (odict_update d d2) k = Some v.
Proof.
  unfold odict_update. intros H. revert d.
  induction H as [|[k1 v1] d2 H1 _ IH]; intros d; simpl.
  - intros [H|H]; [exact H | inversion H].
  - simpl in H1. subst v1. intros H. apply IH.
    rewrite odict_get_set. destruct (py_eq k1 k) eqn:E; [now left|].
    destruct H as [H|H]; [now left|].
    inversion H as [? ? Hk|? ? Hk]; subst; [simpl in Hk; congruence|].
    now right.
Qed.

Lemma odict_get_Some_in (d : odict) (k v : pyval) :
  odict_get d k = Some v ->
  exists k', In (k', v) d /\ py_eq k' k = true.
Proof.
  induction d as [|[k0 v0] d IH]; simpl; [discriminate|].
  destruct (py_eq k0 k) eqn:E.
  - intros [= ->]. exists k0. auto.
  - intros H. destruct (IH H) as (k' & Hin & Hk). exists k'. auto.
Qed.

Lemma odict_of_pairs_from_ok (pairs : list (pyval * pyval)) :
  forall acc d,
    odict_of_pairs_from acc pairs = Ok d ->
    d = odict_update acc pairs /\
    forallb (fun kv => hashable (fst kv)) pairs = true.
Proof.
  induction pairs as [|[k v] rest IH]; intros acc d; simpl.
  - intros [= <-]. auto.
  - destruct (hashable k); [|discriminate]. intros H.
    destruct (IH _ _ H) as [-> Hh]. auto.
Qed.

(** ** What [append] does to the instruction *)

Lemma append_ok_full (self : ParsingInstruction)
  (varname text required_units desc : pyval) (self' : ParsingInstruction) :
  ParsingInstruction_append varname text required_units desc self
  = (Ok tt, self') ->
  exists rus header_strings desc0,
    ParsingInstruction__verify_inputs self varname required_units = Ok tt /\
    as_list required_units = Ok rus /\
    as_list text = Ok header_strings /\
    (if is_False desc then list_first header_strings else Ok desc)
      = Ok desc0 /\
    hashable varname = true /\
    forallb hashable header_strings = true /\
    self' = {| varname_mapper :=
                 odict_update (varname_mapper self)
                   (odict_update []
                      (map (fun hs => (hs, varname)) header_strings));
               required_labels :=
                 required_labels self
                   ++ map (fun unit => (varname, unit)) rus;
               descriptions := odict_set (descriptions self) varname desc0 |}.
Proof.
  intros H. generalize H. intros H0. apply append_ok_inv in H0.
  destruct H0 as (rus & hs & desc0 & vm & Hv & Hru & Ht & Hd & Hh & ->).
  exists rus, hs, desc0. repeat split; auto.
  - revert H.
    unfold ParsingInstruction_append, mbind, lift, this, mret, mutate.
    rewrite Hv, Ht. cbv beta iota.
    assert (Hkeys : forall d,
               odict_of_pairs (map (fun h => (h, varname)) hs) = Ok d ->
               forallb hashable hs = true).
    { intros d Hd'. apply odict_of_pairs_from_ok in Hd'.
      destruct Hd' as [_ Hd']. rewrite forallb_forall in *.
      intros h Hin. apply (Hd' (h, varname)).
      apply in_map_iff. now exists h. }
    destruct (is_False desc); cbv beta.
    + destruct (list_first hs); [|discriminate]. rewrite Hru.
      destruct (odict_of_pairs _) as [d|] eqn:E; [|discriminate].
      intros _. now apply (Hkeys d).
    + rewrite Hru.
      destruct (odict_of_pairs _) as [d|] eqn:E; [|discriminate].
      intros _. now apply (Hkeys d).
  - revert H.
    unfold ParsingInstruction_append, mbind, lift, this, mret, mutate.
    rewrite Hv, Ht. cbv beta iota.
    destruct (is_False desc); cbv beta.
    + destruct (list_first hs) as [d0|]; [|discriminate]. rewrite Hru.
      destruct (odict_of_pairs _) as [d|] eqn:E; [|discriminate].
      apply odict_of_pairs_from_ok in E. destruct E as [-> _].
      destruct (odict_of_pairs _); [|discriminate].
      intros [= E]. injection Hd as <-. simpl in E.
      congruence.
    + rewrite Hru.
      destruct (odict_of_pairs _) as [d|] eqn:E; [|discriminate].
      apply odict_of_pairs_from_ok in E. destruct E as [-> _].
      destruct (odict_of_pairs _); [|discriminate].
      intros [= E]. simpl in E. congruence.
Qed.

Lemma label_pairs_const (varname : pyval) (header_strings : list pyval) :
  Forall (fun kv : pyval * pyval => snd kv = varname)
         (map (fun hs => (hs, varname)) header_strings).
Proof.
  apply Forall_forall. intros kv Hin. apply in_map_iff in Hin.
  destruct Hin as (h & <- & _). reflexivity.
Qed.

Lemma label_mapper_entries (varname : pyval) (header_strings : list pyval)
  (kv : pyval * pyval) :
  In kv (odict_update [] (map (fun hs => (hs, varname)) header_strings)) ->
  In (fst kv) header_strings /\ snd kv = varname.
Proof.
  intros H. apply odict_update_entries in H.
  rewrite !map_map in H. simpl in H. rewrite map_id in H.
  destruct H as [[[]|H1] [[]|H2]]. split; [exact H2|].
  apply in_map_iff in H1. now destruct H1 as (h & <- & _).
Qed.

Lemma append_label_bound :
  forall (self : ParsingInstruction)
         (varname text required_units desc : pyval)
         (self' : ParsingInstruction) (header_strings : list pyval)
         (h : pyval),
    ParsingInstruction_append varname text required_units desc self
    = (Ok tt, self') ->
    as_list text = Ok header_strings ->
    In h header_strings ->
    odict_get (varname_mapper self') h = Some varname.
Proof.
  intros self varname text required_units desc self' hs h H Ht Hin.
  apply append_ok_full in H.
  destruct H as (rus & hs' & desc0 & _ & _ & Ht' & _ & _ & _ & ->).
  rewrite Ht in Ht'. injection Ht' as <-. simpl.
  assert (Hvm : odict_get
                  (odict_update [] (map (fun x => (x, varname)) hs)) h
                = Some varname).
  { apply odict_update_get_const; [apply label_pairs_const|].
    right. apply Exists_exists. exists (h, varname). split.
    - apply in_map_iff. now exists h.
    - apply py_eq_refl. }
  apply odict_update_get_const.
  - apply Forall_forall. intros kv Hkv.
    now apply label_mapper_entries in Hkv.
  - right. apply odict_get_Some_in in Hvm. destruct Hvm as (k' & Hk' & Heq).
    apply Exists_exists. now exists (k', varname).
Qed.

(** X1: after an [append] that returned, every header string of the label
    text is a key of [varname_mapper] and maps to the variable name, whether
    or not it was bound to another variable before. *)
Theorem append_binds_labels :
  forall (self : ParsingInstruction)
         (varname text required_units desc : pyval)
         (self' : ParsingInstruction) (header_strings : list pyval)
         (h : pyval),
    ParsingInstruction_append varname text required_units desc self
    = (Ok tt, self') ->
    as_list text = Ok header_strings ->
    In h header_strings ->
    odict_get (varname_mapper self') h = Some varname.
Proof. exact append_label_bound. Qed.

(** X1 on [append("UNEMPL", ["Уровень безработицы"], ["pct"])] after the
    instruction for GDP. *)
Lemma append_binds_labels_witness :
  odict_get
    (varname_mapper
       (snd (ParsingInstruction_append
               (PStr (u "UNEMPL")) (PList [PStr (u "Уровень безработицы")])
               (PList [PStr (u "pct")]) no_desc gdp_instr)))
    (PStr (u "Уровень безработицы"))
  = Some (PStr (u "UNEMPL")).
Proof.
  apply (append_binds_labels gdp_instr (PStr (u "UNEMPL"))
           (PList [PStr (u "Уровень безработицы")]) (PList [PStr (u "pct")])
           no_desc _ [PStr (u "Уровень безработицы")]).
  - vm_compute. reflexivity.
  - reflexivity.
  - left. reflexivity.
Defined.

(** X2: an [append] that returned leaves everything else as it was: a label
    that is none of the header strings keeps its binding (or stays
    unbound), every other variable keeps its description, and the earlier
    required labels stay in place, followed by one pair (variable, unit) for
    each required unit in the order given. *)
Theorem append_frame :
  forall (self : ParsingInstruction)
         (varname text required_units desc : pyval)
         (self' : ParsingInstruction)
         (header_strings rus : list pyval),
    ParsingInstruction_append varname text required_units desc self
    = (Ok tt, self') ->
    as_list text = Ok header_strings ->
    as_list required_units = Ok rus ->
    (forall k, (forall h, In h header_strings -> py_eq h k = false) ->
               odict_get (varname_mapper self') k
               = odict_get (varname_mapper self) k) /\
    (forall v, py_eq varname v = false ->
               odict_get (descriptions self') v
               = odict_get (descriptions self) v) /\
    required_labels self'
    = required_labels self ++ map (fun unit => (varname, unit)) rus.
Proof.
  intros self varname text required_units desc self' hs rus H Ht Hru.
  apply append_ok_full in H.
  destruct H as (rus' & hs' & desc0 & _ & Hru' & Ht' & _ & _ & _ & ->).
  rewrite Ht in Ht'. injection Ht' as <-.
  rewrite Hru in Hru'. injection Hru' as <-. simpl.
  split; [|split].
  - intros k Hk. apply odict_update_get_other.
    apply Forall_forall. intros kv Hkv.
    apply label_mapper_entries in Hkv. now apply Hk.
  - intros v Hv. now rewrite odict_get_set, Hv.
  - reflexivity.
Qed.

(** X2 on [append("UNEMPL", ...)] after the instruction for GDP. *)
Lemma append_frame_witness :
  let self' :=
    snd (ParsingInstruction_append
           (PStr (u "UNEMPL")) (PList [PStr (u "Уровень безработицы")])
           (PList [PStr (u "pct")]) no_desc gdp_instr) in
  odict_get (varname_mapper self') (PStr (u "Валовой внутренний продукт"))
  = odict_get (varname_mapper gdp_instr)
              (PStr (u "Валовой внутренний продукт")).
Proof.
  apply (proj1 (append_frame gdp_instr (PStr (u "UNEMPL"))
                  (PList [PStr (u "Уровень безработицы")])
                  (PList [PStr (u "pct")]) no_desc _
                  [PStr (u "Уровень безработицы")] [PStr (u "pct")]
                  ltac:(vm_compute; reflexivity) eq_refl eq_refl)).
  intros h [<-|[]]. vm_compute. reflexivity.
Defined.

Lemma append_duplicate (self : ParsingInstruction)
  (varname text required_units desc : pyval) :
  py_in varname (odict_values (varname_mapper self)) = true ->
  ParsingInstruction_append varname text required_units desc self
  = (Raise (ValueError (u "Variable name <{}> already defined") [varname]),
     self).
Proof.
  intros Hdup.
  unfold ParsingInstruction_append, mbind, lift, this,
    ParsingInstruction__verify_inputs.
  now rewrite Hdup.
Qed.

(** ** Validation of the arguments of [append] *)






Lemma py_in_values_iff (v : pyval) (d : odict) :
  py_in v (odict_values d) = true <->
  exists label x, In (label, x) d /\ py_eq v x = true.
Proof.
  unfold py_in, odict_values. rewrite existsb_exists. split.
  - intros (x & Hin & Hx). apply in_map_iff in Hin.
    destruct Hin as ([label x'] & <- & Hin). now exists label, x'.
  - intros (label & x & Hin & Hx). exists x. split; [|exact Hx].
    apply in_map_iff. now exists (label, x).
Qed.



(** With the empty list of label texts and no description [append] raises
    [IndexError] after the validation has passed: the description defaults
    to the first label text. *)
Lemma append_empty_text_no_desc_raises :
  ParsingInstruction__verify_inputs ParsingInstruction_init (PStr (u "X"))
                                    (PStr (u "rog")) = Ok tt /\
  ParsingInstruction_append (PStr (u "X")) (PList []) (PStr (u "rog")) no_desc
                            ParsingInstruction_init
  = (Raise (IndexError (u "list index out of range")),
     ParsingInstruction_init).
Proof.
  split; vm_compute; reflexivity.
Qed.



Lemma append_keeps_binding (self : ParsingInstruction) (c : append_call)
  (h v : pyval) :
  odict_get (varname_mapper self) h = Some v ->
  (forall hs h', as_list (call_text c) = Ok hs -> In h' hs ->
                 py_eq h' h = false) ->
  odict_get
    (varname_mapper
       (snd (ParsingInstruction_append (call_varname c) (call_text c)
               (call_required_units c) (call_desc c) self))) h
  = Some v.
Proof.
  intros Hget Hc.
  destruct (ParsingInstruction_append (call_varname c) (call_text c)
              (call_required_units c) (call_desc c) self)
    as [[[]|e] self'] eqn:H; simpl.
  - apply append_ok_full in H.
    destruct H as (rus & hs & desc0 & _ & _ & Ht & _ & _ & _ & ->). simpl.
    rewrite odict_update_get_other; [exact Hget|].
    apply Forall_forall. intros kv Hkv.
    apply label_mapper_entries in Hkv. destruct Hkv as [Hkv _].
    now apply (Hc hs).
  - apply append_raise_unchanged in H. now subst.
Qed.

(** X3: a variable stays bound, and cannot be appended again, as long as
    its label is not used again: after an [append] of the variable that
    returned with a label [h], and any further calls of [append] none of
    which has a label text equal to [h], an [append] of the same variable
    name raises [ValueError] and changes nothing, whatever its other
    arguments. *)
Theorem append_twice_raises :
  forall (self : ParsingInstruction)
         (varname text required_units desc : pyval)
         (self' : ParsingInstruction) (h : pyval) (rest : list pyval)
         (calls : list append_call)
         (text2 required_units2 desc2 : pyval),
    ParsingInstruction_append varname text required_units desc self
    = (Ok tt, self') ->
    as_list text = Ok (h :: rest) ->
    (forall c hs h', In c calls -> as_list (call_text c) = Ok hs ->
                     In h' hs -> py_eq h' h = false) ->
    ParsingInstruction_append varname text2 required_units2 desc2
      (ParsingInstruction_appends calls self')
    = (Raise (ValueError (u "Variable name <{}> already defined") [varname]),
       ParsingInstruction_appends calls self').
Proof.
  intros self varname text required_units desc self' h rest calls
         text2 required_units2 desc2 H Ht Hcalls.
  apply append_duplicate.
  assert (Hget : odict_get (varname_mapper self') h = Some varname).
  { apply (append_label_bound self varname text required_units desc self'
             (h :: rest) h H Ht). now left. }
  clear H Ht. revert self' Hget.
  induction calls as [|c calls IH]; intros self' Hget; simpl.
  - apply odict_get_Some_in in Hget. destruct Hget as (k' & Hin & _).
    apply py_in_values_iff. exists k', varname.
    split; [exact Hin | apply py_eq_refl].
  - apply IH.
    + intros c' hs h' Hin. apply (Hcalls c' hs h'). now right.
    + apply append_keeps_binding; [exact Hget|].
      intros hs h'. apply (Hcalls c hs h'). now left.
Qed.

(** X3 on a second [append] of GDP after [append("UNEMPL", ...)]. *)
Lemma append_twice_raises_witness :
  ParsingInstruction_append
    (PStr (u "GDP")) (PStr (u "ВВП")) (PStr (u "bln_rub")) no_desc
    (ParsingInstruction_appends
       [mkCall (PStr (u "UNEMPL")) (PList [PStr (u "Уровень безработицы")])
               (PList [PStr (u "pct")]) no_desc]
       (snd (ParsingInstruction_append
               (PStr (u "GDP")) (PStr (u "Валовой внутренний продукт"))
               (PStr (u "bln_rub")) no_desc ParsingInstruction_init)))
  = (Raise (ValueError (u "Variable name <{}> already defined")
                       [PStr (u "GDP")]),
     ParsingInstruction_appends
       [mkCall (PStr (u "UNEMPL")) (PList [PStr (u "Уровень безработицы")])
               (PList [PStr (u "pct")]) no_desc]
       (snd (ParsingInstruction_append
               (PStr (u "GDP")) (PStr (u "Валовой внутренний продукт"))
               (PStr (u "bln_rub")) no_desc ParsingInstruction_init))).
Proof.
  refine (append_twice_raises ParsingInstruction_init (PStr (u "GDP"))
            (PStr (u "Валовой внутренний продукт")) (PStr (u "bln_rub"))
            no_desc _ (PStr (u "Валовой внутренний продукт")) []
            [mkCall (PStr (u "UNEMPL"))
                    (PList [PStr (u "Уровень безработицы")])
                    (PList [PStr (u "pct")]) no_desc]
            (PStr (u "ВВП")) (PStr (u "bln_rub")) no_desc _ eq_refl _).
  - vm_compute. reflexivity.
  - intros c hs h' [<-|[]] [= <-] [<-|[]]. vm_compute. reflexivity.
Defined.

(** X4: the empty list of label texts binds nothing: with a description
    given and arguments that pass validation, [append(varname, [], units,
    desc)] returns and leaves [varname_mapper] as it was, so the variable
    name is still free: the same call returns again, and the required labels
    of the variable are then listed twice. *)
Theorem append_empty_text_binds_nothing :
  forall (self : ParsingInstruction) (varname required_units desc : pyval)
         (rus : list pyval),
    ParsingInstruction__verify_inputs self varname required_units = Ok tt ->
    as_list required_units = Ok rus ->
    hashable varname = true ->
    is_False desc = false ->
    exists self1 self2,
      ParsingInstruction_append varname (PList []) required_units desc self
      = (Ok tt, self1) /\
      varname_mapper self1 = varname_mapper self /\
      ParsingInstruction_append varname (PList []) required_units desc self1
      = (Ok tt, self2) /\
      required_labels self2
      = required_labels self
          ++ map (fun unit => (varname, unit)) rus
          ++ map (fun unit => (varname, unit)) rus.
Proof.
  intros self varname required_units desc rus Hv Hru Hh Hd.
  assert (Hd0 : (if is_False desc then list_first [] else Ok desc) = Ok desc)
    by now rewrite Hd.
  destruct (append_valid self varname (PList []) required_units desc rus []
              desc Hv Hru eq_refl Hd0 Hh eq_refl) as (vm & Hvm & H1).
  injection Hvm as <-.
  eexists. eexists. split; [exact H1|]. split; [reflexivity|].
  assert (Hv1 : ParsingInstruction__verify_inputs
                  {| varname_mapper := odict_update (varname_mapper self) [];
                     required_labels :=
                       required_labels self
                         ++ map (fun unit => (varname, unit)) rus;
                     descriptions :=
                       odict_set (descriptions self) varname desc |}
                  varname required_units = Ok tt) by exact Hv.
  destruct (append_valid _ varname (PList []) required_units desc rus []
              desc Hv1 Hru eq_refl Hd0 Hh eq_refl) as (vm & Hvm & H2).
  injection Hvm as <-.
  split; [exact H2|]. simpl. now rewrite <- app_assoc.
Qed.

(** X4 on [append("X", [], "rog", "a description")] on a new instruction. *)
Lemma append_empty_text_binds_nothing_witness :
  exists self1 self2,
    ParsingInstruction_append (PStr (u "X")) (PList []) (PStr (u "rog"))
                              (PStr (u "a description"))
                              ParsingInstruction_init
    = (Ok tt, self1) /\
    varname_mapper self1 = varname_mapper ParsingInstruction_init /\
    ParsingInstruction_append (PStr (u "X")) (PList []) (PStr (u "rog"))
                              (PStr (u "a description")) self1
    = (Ok tt, self2) /\
    required_labels self2
    = required_labels ParsingInstruction_init
        ++ map (fun unit => (PStr (u "X"), unit)) [PStr (u "rog")]
        ++ map (fun unit => (PStr (u "X"), unit)) [PStr (u "rog")].
Proof.
  apply (append_empty_text_binds_nothing ParsingInstruction_init
           (PStr (u "X")) (PStr (u "rog")) (PStr (u "a description"))
           [PStr (u "rog")]).
  - vm_compute. reflexivity.
  - reflexivity.
  - reflexivity.
  - reflexivity.
Defined.

(** ** What every instruction keeps *)

Lemma append_keeps_described (self : ParsingInstruction)
  (varname text required_units desc : pyval) :
  mapper_described self ->
  mapper_described
    (snd (ParsingInstruction_append varname text required_units desc self)).
Proof.
  intros Hinv.
  destruct (ParsingInstruction_append varname text required_units desc self)
    as [[[]|e] self'] eqn:H; simpl.
  - apply append_ok_full in H.
    destruct H as (rus & hs & desc0 & _ & _ & _ & _ & Hh & Hhs & ->).
    intros k v Hin. simpl in *.
    assert (Hdesc : forall v0,
               odict_get (descriptions self) v0 <> None \/ v0 = varname ->
               odict_get (odict_set (descriptions self) varname desc0) v0
               <> None).
    { intros v0 Hv0. rewrite odict_get_set.
      destruct (py_eq varname v0) eqn:E; [discriminate|].
      destruct Hv0 as [Hv0| ->]; [exact Hv0|].
      now rewrite py_eq_refl in E. }
    apply odict_update_entries in Hin. simpl in Hin.
    destruct Hin as [Hval Hkey]. split; [|split].
    + destruct Hkey as [Hkey|Hkey].
      * apply in_map_iff in Hkey. destruct Hkey as ([k0 v0] & <- & Hk0).
        now apply (Hinv k0 v0).
      * apply in_map_iff in Hkey. destruct Hkey as (kv & <- & Hkv).
        apply label_mapper_entries in Hkv. destruct Hkv as [Hkv _].
        rewrite forallb_forall in Hhs. now apply Hhs.
    + destruct Hval as [Hval|Hval].
      * now apply (Hinv k v).
      * apply in_map_iff in Hval. destruct Hval as (kv & <- & Hkv).
        apply label_mapper_entries in Hkv. destruct Hkv as [_ ->].
        exact Hh.
    + apply Hdesc. destruct Hval as [Hval|Hval].
      * left. now apply (Hinv k v).
      * right. apply in_map_iff in Hval. destruct Hval as (kv & <- & Hkv).
        now apply label_mapper_entries in Hkv.
  - apply append_raise_unchanged in H. now subst.
Qed.

Lemma append_keeps_known (self : ParsingInstruction)
  (varname text required_units desc : pyval) :
  labels_known self ->
  labels_known
    (snd (ParsingInstruction_append varname text required_units desc self)).
Proof.
  intros Hinv.
  destruct (ParsingInstruction_append varname text required_units desc self)
    as [[[]|e] self'] eqn:H; simpl.
  - apply append_ok_full in H.
    destruct H as (rus & hs & desc0 & Hv & Hru & _ & _ & _ & _ & ->).
    apply verify_inputs_ok in Hv.
    destruct Hv as (_ & rus' & Hru' & Hknown).
    rewrite Hru in Hru'. injection Hru' as <-.
    intros v unit Hin. simpl in *. rewrite odict_get_set.
    apply in_app_or in Hin. destruct Hin as [Hin|Hin].
    + destruct (Hinv v unit Hin) as [Hu Hd]. split; [exact Hu|].
      now destruct (py_eq varname v).
    + apply in_map_iff in Hin. destruct Hin as (unit' & [= <- <-] & Hin).
      rewrite forallb_forall in Hknown. split; [now apply Hknown|].
      now rewrite py_eq_refl.
  - apply append_raise_unchanged in H. now subst.
Qed.

Lemma appends_keep_described :
  forall calls : list append_call,
    mapper_described
      (ParsingInstruction_appends calls ParsingInstruction_init).
Proof.
  intros calls.
  assert (H0 : mapper_described ParsingInstruction_init)
    by (intros k v []).
  revert H0. generalize ParsingInstruction_init as self.
  induction calls as [|c calls IH]; intros self Hinv; simpl; [exact Hinv|].
  apply IH. now apply append_keeps_described.
Qed.

(** X5: in every instruction reached from a new one by calls of [append]
    (with any arguments, returning or raising), the labels and the variable
    names of [varname_mapper] are hashable and every variable name in it has
    an entry in [descriptions]. *)
Theorem appends_mapper_described :
  forall calls : list append_call,
    mapper_described
      (ParsingInstruction_appends calls ParsingInstruction_init).
Proof. exact appends_keep_described. Qed.

(** X6: in every instruction reached from a new one by calls of [append],
    every pair of [required_labels] names a unit code of [UNITS] and a
    variable that has an entry in [descriptions]. *)
Theorem appends_labels_known :
  forall calls : list append_call,
    labels_known (ParsingInstruction_appends calls ParsingInstruction_init).
Proof.
  intros calls.
  assert (H0 : labels_known ParsingInstruction_init)
    by (intros v unit []).
  revert H0. generalize ParsingInstruction_init as self.
  induction calls as [|c calls IH]; intros self Hinv; simpl; [exact Hinv|].
  apply IH. now apply append_keeps_known.
Qed.

(** ** Equality of instructions *)

Lemma pair_eq_refl (p : pyval * pyval) : pair_eq p p = true.
Proof. unfold pair_eq. now rewrite !py_eq_refl. Qed.

Lemma pair_eq_sym (p q : pyval * pyval) : pair_eq p q = pair_eq q p.
Proof.
  unfold pair_eq. now rewrite (py_eq_sym (fst p)), (py_eq_sym (snd p)).
Qed.

Lemma pair_eq_trans (p q r : pyval * pyval) :
  pair_eq p q = true -> pair_eq q r = true -> pair_eq p r = true.
Proof.
  unfold pair_eq. rewrite !andb_true_iff. intros [H1 H2] [H3 H4].
  split; eapply py_eq_trans; eauto.
Qed.

Lemma all2b_pair_refl (l : list (pyval * pyval)) : all2b pair_eq l l = true.
Proof.
  induction l as [|p l IH]; simpl; [reflexivity|].
  now rewrite pair_eq_refl, IH.
Qed.

Lemma all2b_pair_sym (l1 l2 : list (pyval * pyval)) :
  all2b pair_eq l1 l2 = all2b pair_eq l2 l1.
Proof.
  revert l2. induction l1 as [|p l1 IH]; intros [|q l2]; simpl; auto.
  now rewrite pair_eq_sym, IH.
Qed.

Lemma all2b_pair_trans (l1 l2 l3 : list (pyval * pyval)) :
  all2b pair_eq l1 l2 = true -> all2b pair_eq l2 l3 = true ->
  all2b pair_eq l1 l3 = true.
Proof.
  revert l2 l3.
  induction l1 as [|p l1 IH]; intros [|q l2] [|r l3]; simpl;
    try discriminate; auto.
  rewrite !andb_true_iff. intros [H1 H2] [H3 H4]. split.
  - eapply pair_eq_trans; eauto.
  - eapply IH; eauto.
Qed.

(** X7: [__eq__] between instructions is an equivalence: every instruction
    equals itself, the comparison gives the same answer both ways round, and
    two instructions equal to a third are equal. *)
Theorem ParsingInstruction_eq_equivalence :
  (forall a, ParsingInstruction_eq a a = true) /\
  (forall a b, ParsingInstruction_eq a b = ParsingInstruction_eq b a) /\
  (forall a b c,
      ParsingInstruction_eq a b = true ->
      ParsingInstruction_eq b c = true ->
      ParsingInstruction_eq a c = true).
Proof.
  unfold ParsingInstruction_eq. split; [|split].
  - intros a. now rewrite !all2b_pair_refl.
  - intros a b.
    now rewrite (all2b_pair_sym (required_labels a)),
      (all2b_pair_sym (varname_mapper a)).
  - intros a b c. cbv zeta. rewrite !andb_true_iff.
    intros [H1 H2] [H3 H4]. split; eapply all2b_pair_trans; eauto.
Qed.

(** X7 on the instruction for GDP and a new one. *)
Lemma ParsingInstruction_eq_equivalence_witness :
  ParsingInstruction_eq gdp_instr gdp_instr = true.
Proof.
  apply (proj2 (proj2 ParsingInstruction_eq_equivalence)
               gdp_instr gdp_instr gdp_instr);
    apply (proj1 ParsingInstruction_eq_equivalence).
Defined.

(** X8: [__eq__] does not look at the descriptions: the same [append] made
    with two different descriptions on the same instruction gives two
    instructions that are equal. *)
Theorem ParsingInstruction_eq_ignores_descriptions :
  forall (self : ParsingInstruction)
         (varname text required_units desc1 desc2 : pyval)
         (self1 self2 : ParsingInstruction),
    ParsingInstruction_append varname text required_units desc1 self
    = (Ok tt, self1) ->
    ParsingInstruction_append varname text required_units desc2 self
    = (Ok tt, self2) ->
    ParsingInstruction_eq self1 self2 = true.
Proof.
  intros self varname text required_units desc1 desc2 self1 self2 H1 H2.
  apply append_ok_full in H1, H2.
  destruct H1 as (rus & hs & d1 & _ & Hru & Ht & _ & _ & _ & ->).
  destruct H2 as (rus' & hs' & d2 & _ & Hru' & Ht' & _ & _ & _ & ->).
  rewrite Hru in Hru'. injection Hru' as <-.
  rewrite Ht in Ht'. injection Ht' as <-.
  unfold ParsingInstruction_eq. simpl. now rewrite !all2b_pair_refl.
Qed.

(** X8 on two descriptions of CPI. *)
Lemma ParsingInstruction_eq_ignores_descriptions_witness :
  ParsingInstruction_eq
    (snd (ParsingInstruction_append
            (PStr (u "CPI")) (PStr (u "Индекс потребительских цен"))
            (PStr (u "rog")) (PStr (u "Индекс потребительских цен (ИПЦ)"))
            ParsingInstruction_init))
    (snd (ParsingInstruction_append
            (PStr (u "CPI")) (PStr (u "Индекс потребительских цен"))
            (PStr (u "rog")) no_desc ParsingInstruction_init))
  = true.
Proof.
  apply (ParsingInstruction_eq_ignores_descriptions ParsingInstruction_init
           (PStr (u "CPI")) (PStr (u "Индекс потребительских цен"))
           (PStr (u "rog")) (PStr (u "Индекс потребительских цен (ИПЦ)"))
           no_desc);
    vm_compute; reflexivity.
Defined.

(** ** The variable names of a definition *)

Lemma py_in_app (v : pyval) (l1 l2 : list pyval) :
  py_in v (l1 ++ l2) = py_in v l1 || py_in v l2.
Proof. unfold py_in. apply existsb_app. Qed.

Lemma py_in_compat (v w : pyval) (l : list pyval) :
  py_eq w v = true -> py_in v l = true -> py_in w l = true.
Proof.
  unfold py_in. rewrite !existsb_exists. intros Hwv (a & Hin & Hva).
  exists a. split; [exact Hin|]. eapply py_eq_trans; eauto.
Qed.

Lemma py_distinct_snoc (l : list pyval) (x : pyval) :
  py_distinct l = true -> py_in x l = false -> py_distinct (l ++ [x]) = true.
Proof.
  induction l as [|a l IH]; simpl; [reflexivity|].
  rewrite andb_true_iff, negb_true_iff. intros [Ha Hl].
  unfold py_in at 1. simpl. rewrite orb_false_iff. intros [Hxa Hx].
  rewrite py_in_app, Ha. unfold py_in at 1. simpl.
  rewrite (py_eq_sym a x), Hxa. simpl. now apply IH.
Qed.

Lemma py_in_cons (v x : pyval) (l : list pyval) :
  py_in v (x :: l) = py_eq v x || py_in v l.
Proof. reflexivity. Qed.

Lemma pyset_of_list_from_ok (l : list pyval) :
  forall acc s,
    pyset_of_list_from acc l = Ok s ->
    (py_distinct acc = true -> py_distinct s = true) /\
    (forall v, py_in v s = py_in v acc || py_in v l).
Proof.
  induction l as [|x l IH]; intros acc s.
  - intros [= <-]. split; [auto|]. intros v. apply eq_sym, orb_false_r.
  - cbn [pyset_of_list_from]. unfold pyset_add.
    destruct (hashable x); [|discriminate].
    destruct (py_in x acc) eqn:Hx; intros H; apply IH in H;
      destruct H as [Hd Hin].
    + split; [exact Hd|]. intros v. rewrite Hin, py_in_cons.
      destruct (py_eq v x) eqn:E; [|reflexivity].
      now rewrite (py_in_compat x v acc E Hx).
    + split.
      * intros Hacc. apply Hd. now apply py_distinct_snoc.
      * intros v. rewrite Hin, py_in_app, !py_in_cons.
        change (py_in v []) with false.
        now rewrite orb_false_r, orb_assoc.
Qed.

Lemma pyset_of_list_from_total (l : list pyval) :
  forallb hashable l = true ->
  forall acc, exists s, pyset_of_list_from acc l = Ok s.
Proof.
  induction l as [|x l IH]; simpl; intros H acc; [now exists acc|].
  apply andb_true_iff in H. destruct H as [Hx Hl].
  unfold pyset_add. rewrite Hx. now apply IH.
Qed.

(** X9: when [Definition.get_varnames] returns, the list has no variable
    name twice and holds exactly the variable names that are values of the
    mapper; and it does return on every definition whose instruction was
    built from a new one by calls of [append]. *)
Theorem Definition_get_varnames_distinct :
  (forall (self : DefinitionT) (names : list pyval),
      Definition_get_varnames self = Ok names ->
      py_distinct names = true /\
      forall v, py_in v names
                = py_in v (odict_values (Definition_get_varname_mapper self)))
  /\
  (forall (calls : list append_call) (sc : option Scope) (rd : option str),
      exists names,
        Definition_get_varnames
          {| instr := ParsingInstruction_appends calls ParsingInstruction_init;
             scope := sc; reader := rd |}
        = Ok names).
Proof.
  split.
  - intros self names H. unfold Definition_get_varnames, pyset_of_list in H.
    apply pyset_of_list_from_ok in H. destruct H as [Hd Hin].
    split; [now apply Hd|]. intros v. now rewrite Hin.
  - intros calls sc rd. unfold Definition_get_varnames, pyset_of_list.
    apply pyset_of_list_from_total. apply forallb_forall.
    intros v Hin. unfold odict_values, Definition_get_varname_mapper in Hin.
    simpl in Hin. apply in_map_iff in Hin. destruct Hin as ([k v'] & <- & Hin).
    now apply (appends_keep_described calls k v').
Qed.

(** X9 on the definition that holds the instruction for GDP: its three
    labels give the one name. *)
Lemma Definition_get_varnames_distinct_witness :
  py_distinct [PStr (u "GDP")] = true /\
  forall v, py_in v [PStr (u "GDP")]
            = py_in v (odict_values
                         (Definition_get_varname_mapper
                            {| instr := gdp_instr; scope := None;
                               reader := None |})).
Proof.
  apply (proj1 Definition_get_varnames_distinct
               {| instr := gdp_instr; scope := None; reader := None |}
               [PStr (u "GDP")]).
  vm_compute. reflexivity.
Defined.

(** ** Construction of definitions and scopes *)

Lemma existsb_str_eqb (name : str) (keys : list str) :
  existsb (str_eqb name) keys = true <-> In name keys.
Proof.
  rewrite existsb_exists. split.
  - intros (k & Hin & Hk). apply str_eqb_eq in Hk. now subst.
  - intros Hin. exists name. split; [exact Hin | apply str_eqb_refl].
Qed.

(** X10: [Definition(scope, reader)] with a reader name: a name that is a
    key of [FUNC_MAPPER] is stored; any other non-empty name raises
    [ValueError] with the name; the empty name is not checked at all and
    gives a definition without reader, as if none had been given.  The new
    definition holds the scope given and an empty instruction. *)
Theorem Definition_init_reader :
  forall (FUNC_MAPPER_keys : list str) (sc : option Scope) (name : str),
    (name <> [] -> In name FUNC_MAPPER_keys ->
     Definition_init FUNC_MAPPER_keys sc (Some name)
     = Ok {| instr := ParsingInstruction_init; scope := sc;
             reader := Some name |}) /\
    (name <> [] -> ~ In name FUNC_MAPPER_keys ->
     Definition_init FUNC_MAPPER_keys sc (Some name)
     = Raise (ValueError [] [PStr name])) /\
    (name = [] ->
     Definition_init FUNC_MAPPER_keys sc (Some name)
     = Ok {| instr := ParsingInstruction_init; scope := sc;
             reader := None |}).
Proof.
  intros keys sc name. unfold Definition_init, Definition_set_reader.
  split; [|split].
  - intros Hne Hin. destruct name as [|c name]; [now destruct Hne|].
    apply existsb_str_eqb in Hin. rewrite Hin. now destruct sc.
  - intros Hne Hin. destruct name as [|c name]; [now destruct Hne|].
    destruct (existsb _ keys) eqn:E; [|reflexivity].
    apply existsb_str_eqb in E. now destruct Hin.
  - intros ->. now destruct sc.
Qed.

(** X10 on [Definition(scope=sc, reader="fiscal")] with the readers
    [fiscal] and [default]. *)
Lemma Definition_init_reader_witness :
  Definition_init [u "default"; u "fiscal"] (Some investment_scope)
                  (Some (u "fiscal"))
  = Ok {| instr := ParsingInstruction_init; scope := Some investment_scope;
          reader := Some (u "fiscal") |}.
Proof.
  apply (proj1 (Definition_init_reader [u "default"; u "fiscal"]
                  (Some investment_scope) (u "fiscal"))).
  - discriminate.
  - right. left. reflexivity.
Defined.

Lemma Scope_add_all_spec (pairs : list (str * str)) :
  forall self,
    Scope_add_all self pairs
    = if forallb (fun p => truthy (fst p) && truthy (snd p)) pairs
      then Ok (self ++ map (fun p => mkMarker (fst p) (snd p)) pairs)
      else Raise (ValueError
                    (u "Cannot accept empty line as Scope() boundary") []).
Proof.
  induction pairs as [|[s e] rest IH]; intros self; simpl.
  - now rewrite app_nil_r.
  - unfold Scope_add_bounds.
    destruct (truthy s && truthy e); simpl; [|reflexivity].
    rewrite IH. now rewrite <- app_assoc.
Qed.

(** X11: a scope is built from pairs of non-empty lines only: with every
    start and end line non-empty, [Scope(start, end)] followed by
    [add_bounds] for further pairs holds the pairs in the order given; as
    soon as one line is empty the construction raises [ValueError].  So a
    scope that was built is never empty and no marker of it is the empty
    line. *)
Theorem Scope_build_markers :
  forall (start end_ : str) (more : list (str * str)),
    let all := (start, end_) :: more in
    (forallb (fun p => truthy (fst p) && truthy (snd p)) all = true ->
     Scope_build start end_ more
     = Ok (map (fun p => mkMarker (fst p) (snd p)) all)) /\
    (forallb (fun p => truthy (fst p) && truthy (snd p)) all = false ->
     Scope_build start end_ more
     = Raise (ValueError
                (u "Cannot accept empty line as Scope() boundary") [])) /\
    (forall self, Scope_build start end_ more = Ok self ->
                  self <> [] /\
                  forall mk, In mk self ->
                             marker_start mk <> [] /\ marker_end mk <> []).
Proof.
  intros start end_ more all.
  assert (Hb : Scope_build start end_ more
               = if forallb (fun p => truthy (fst p) && truthy (snd p)) all
                 then Ok (map (fun p => mkMarker (fst p) (snd p)) all)
                 else Raise (ValueError
                        (u "Cannot accept empty line as Scope() boundary")
                        [])).
  { unfold Scope_build, Scope_init, Scope_add_bounds, all.
    cbn [forallb fst snd map].
    destruct (truthy start && truthy end_); cbn [rbind andb];
      [|reflexivity].
    now rewrite Scope_add_all_spec. }
  split; [|split].
  - intros H. now rewrite Hb, H.
  - intros H. now rewrite Hb, H.
  - intros self. rewrite Hb.
    destruct (forallb _ all) eqn:E; [|discriminate].
    intros [= <-]. split; [discriminate|].
    intros mk Hin.
    change (In mk (map (fun p => mkMarker (fst p) (snd p)) all)) in Hin.
    apply in_map_iff in Hin. destruct Hin as (p & <- & Hp).
    rewrite forallb_forall in E. apply E in Hp.
    apply andb_true_iff in Hp. destruct Hp as [Hs He]. simpl.
    split; intros Heq; [rewrite Heq in Hs | rewrite Heq in He]; discriminate.
Qed.

(** X11 on the scope of the investment segment. *)
Lemma Scope_build_markers_witness :
  Scope_build (u "1.6. Инвестиции в основной капитал")
              (u "1.6.1. Инвестиции в основной капитал организаций")
              [(u "1.7. Инвестиции в основной капитал",
                u "1.7.1. Инвестиции в основной капитал организаций")]
  = Ok (map (fun p => mkMarker (fst p) (snd p))
            [(u "1.6. Инвестиции в основной капитал",
              u "1.6.1. Инвестиции в основной капитал организаций");
             (u "1.7. Инвестиции в основной капитал",
              u "1.7.1. Инвестиции в основной капитал организаций")]).
Proof.
  refine (proj1 (Scope_build_markers
                   (u "1.6. Инвестиции в основной капитал")
                   (u "1.6.1. Инвестиции в основной капитал организаций")
                   [(u "1.7. Инвестиции в основной капитал",
                     u "1.7.1. Инвестиции в основной капитал организаций")])
                _).
  vm_compute. reflexivity.
Defined.

(** X12: [repr] of a scope that was built never raises and shows the first
    pair only: at most the first ten characters of its start and of its end
    line, whatever further pairs were added. *)
Theorem Scope_repr_built :
  forall (start end_ : str) (more : list (str * str)) (self : Scope),
    Scope_build start end_ more = Ok self ->
    Scope_repr self
    = Ok (u "bound by start <" ++ firstn 10 start ++ u "...> and end <"
            ++ firstn 10 end_ ++ u "...>").
Proof.
  intros start end_ more self H.
  unfold Scope_build, Scope_init, Scope_add_bounds in H.
  destruct (truthy start && truthy end_); [|discriminate].
  cbn [rbind app] in H. rewrite Scope_add_all_spec in H.
  destruct (forallb _ more); [|discriminate].
  now injection H as <-.
Qed.

(** X12 on the scope of the CPI segment. *)
Lemma Scope_repr_built_witness :
  Scope_repr [mkMarker (u "3.5. Индекс потребительских цен")
                       (u "4. Социальная сфера")]
  = Ok (u "bound by start <"
          ++ firstn 10 (u "3.5. Индекс потребительских цен")
          ++ u "...> and end <" ++ firstn 10 (u "4. Социальная сфера")
          ++ u "...>").
Proof.
  refine (Scope_repr_built (u "3.5. Индекс потребительских цен")
                           (u "4. Социальная сфера") [] _ _).
  vm_compute. reflexivity.
Defined.

Example Scope_repr_CPI :
  Scope_repr [mkMarker (u "3.5. Индекс потребительских цен")
                       (u "4. Социальная сфера")]
  = Ok (u "bound by start <3.5. Индек...> and end <4. Социаль...>").
Proof. vm_compute. reflexivity. Qed.

(** ** Bounds of a scope and the rows *)

Lemma first_bounds_ext (rows rows' : list Row) (markers : list marker) :
  (forall line, Scope__is_found line rows = Scope__is_found line rows') ->
  first_bounds markers rows = first_bounds markers rows'.
Proof.
  intros H. induction markers as [|mk rest IH]; simpl; [reflexivity|].
  now rewrite !H, IH.
Qed.

Lemma error_message_ext (rows rows' : list Row) (markers : list marker) :
  (forall line, Scope__is_found line rows = Scope__is_found line rows') ->
  Scope__error_message markers rows = Scope__error_message markers rows'.
Proof.
  intros H. rewrite !error_message_lines. do 2 f_equal.
  apply flat_map_ext. intros mk. unfold marker_report. now rewrite !H.
Qed.

Lemma is_found_same_rows (rows rows' : list Row) (line : str) :
  (forall r, In r rows <-> In r rows') ->
  Scope__is_found line rows = Scope__is_found line rows'.
Proof.
  intros H.
  destruct (Scope__is_found line rows) eqn:E1,
           (Scope__is_found line rows') eqn:E2; auto.
  - apply is_found_iff in E1. destruct E1 as (r & Hin & Hr).
    assert (E : Scope__is_found line rows' = true)
      by (apply is_found_iff; exists r; split; [now apply H | exact Hr]).
    congruence.
  - apply is_found_iff in E2. destruct E2 as (r & Hin & Hr).
    assert (E : Scope__is_found line rows = true)
      by (apply is_found_iff; exists r; split; [now apply H | exact Hr]).
    congruence.
Qed.

(** X13: [get_bounds] looks only at which rows there are: two sequences
    with the same rows, in any order and any number of times, give the same
    bounds or the same error, message included. *)
Theorem get_bounds_same_rows :
  forall (self : Scope) (rows rows' : list Row),
    (forall r, In r rows <-> In r rows') ->
    Scope_get_bounds self rows = Scope_get_bounds self rows'.
Proof.
  intros self rows rows' H. unfold Scope_get_bounds.
  rewrite (first_bounds_ext rows rows' self),
    (error_message_ext rows rows' self);
    auto using is_found_same_rows.
Qed.

(** X13 on the rows of the tests, reversed and with one row twice. *)
Lemma get_bounds_same_rows_witness :
  Scope_get_bounds [mkMarker (u "bat") (u "dot")] mock_rows
  = Scope_get_bounds [mkMarker (u "bat") (u "dot")]
                     (apt :: rev mock_rows).
Proof.
  apply (get_bounds_same_rows [mkMarker (u "bat") (u "dot")] mock_rows
                              (apt :: rev mock_rows)).
  intros r. split.
  - intros H. right. now apply in_rev in H.
  - intros [<-|H]; [now left | now apply in_rev].
Defined.

Lemma first_bounds_in (markers : list marker) (rows : list Row)
  (s e : str) :
  first_bounds markers rows = Some (s, e) ->
  In (mkMarker s e) markers /\ both_found rows (mkMarker s e) = true.
Proof.
  intros H. apply first_bounds_some in H.
  destruct H as (earlier & later & -> & Hb & _). split; [|exact Hb].
  apply in_or_app. right. now left.
Qed.

Lemma first_bounds_exists (markers : list marker) (rows : list Row)
  (mk : marker) :
  In mk markers -> both_found rows mk = true ->
  exists s e, first_bounds markers rows = Some (s, e).
Proof.
  induction markers as [|m rest IH]; simpl; [intros []|].
  intros Hin Hb.
  change (Scope__is_found (marker_start m) rows
          && Scope__is_found (marker_end m) rows)
    with (both_found rows m).
  destruct (both_found rows m) eqn:E; [eauto|].
  destruct Hin as [->|Hin]; [congruence | now apply IH].
Qed.

Lemma is_found_more_rows (line : str) (rows before after : list Row) :
  Scope__is_found line rows = true ->
  Scope__is_found line (before ++ rows ++ after) = true.
Proof.
  rewrite !is_found_iff. intros (r & Hin & Hr). exists r.
  split; [|exact Hr]. apply in_or_app. right. apply in_or_app. now left.
Qed.

(** X14: the bounds returned are always one of the pairs of the scope, both
    lines of which are found in the rows; and more rows never lose bounds:
    when [get_bounds] returns on some rows it also returns, a pair of the
    scope again, on any sequence that has further rows before or after
    them. *)
Theorem get_bounds_more_rows :
  forall (self : Scope) (rows : list Row) (s e : str),
    Scope_get_bounds self rows = Ok (s, e) ->
    In (mkMarker s e) self /\
    Scope__is_found s rows = true /\ Scope__is_found e rows = true /\
    forall before after,
      exists s' e',
        Scope_get_bounds self (before ++ rows ++ after) = Ok (s', e') /\
        In (mkMarker s' e') self.
Proof.
  intros self rows s e. unfold Scope_get_bounds.
  destruct (first_bounds self rows) as [[s0 e0]|] eqn:E; [|discriminate].
  intros [= -> ->]. apply first_bounds_in in E. destruct E as [Hin Hb].
  unfold both_found in Hb. simpl in Hb. apply andb_true_iff in Hb.
  destruct Hb as [Hs He]. repeat split; auto.
  intros before after.
  destruct (first_bounds_exists self (before ++ rows ++ after)
              (mkMarker s e) Hin) as (s' & e' & E').
  { unfold both_found. simpl.
    now rewrite !is_found_more_rows. }
  exists s', e'. rewrite E'. split; [reflexivity|].
  now apply first_bounds_in in E'.
Qed.

(** X14 on the investment segment. *)
Lemma get_bounds_more_rows_witness :
  In (mkMarker (u "1.7. Инвестиции в основной капитал")
               (u "1.7.1. Инвестиции в основной капитал организаций"))
     investment_scope.
Proof.
  apply (get_bounds_more_rows investment_scope investment_rows
           (u "1.7. Инвестиции в основной капитал")
           (u "1.7.1. Инвестиции в основной капитал организаций")).
  vm_compute. reflexivity.
Defined.

(** X15: on no rows at all [get_bounds] raises [ValueError] for every
    scope, and the message is the line
    [start or end line not found in *rows*] followed, for every pair of the
    scope in order, by the lines [is_found: False <start>] and
    [is_found: False <end>]. *)
Theorem get_bounds_no_rows :
  forall self : Scope,
    Scope_get_bounds self []
    = Raise (ValueError
               (u "start or end line not found in *rows*"
                  ++ flat_map
                       (fun mk =>
                          (10%N :: u "is_found: False <")
                            ++ marker_start mk ++ u ">"
                            ++ (10%N :: u "is_found: False <")
                            ++ marker_end mk ++ u ">")
                       self)
               []).
Proof.
  intros self. unfold Scope_get_bounds.
  assert (H : first_bounds self [] = None)
    by (induction self as [|mk rest IH]; simpl; auto).
  rewrite H, error_message_text. do 3 f_equal.
Qed.

(** ** Required labels of a specification *)

Lemma required_labels_fold (pdefs : list DefinitionT)
  (req : list (pyval * pyval)) :
  fold_left (fun req pdef => req ++ Definition_get_required_labels pdef)
            pdefs req
  = req ++ flat_map Definition_get_required_labels pdefs.
Proof.
  revert req. induction pdefs as [|d pdefs IH]; intros req; simpl.
  - now rewrite app_nil_r.
  - now rewrite IH, app_assoc.
Qed.

(** X16: [Specification.get_required_labels] of a specification built from
    a default definition and appended segment definitions is the list of the
    required labels of the default definition followed by those of each
    segment definition, in the order the segments were appended; no label
    is dropped or reordered, and a label required by two definitions is
    listed twice. *)
Theorem Specification_get_required_labels_concat :
  forall (default : DefinitionT) (segments : list DefinitionT),
    Specification_get_required_labels (Specification_build default segments)
    = Definition_get_required_labels default
        ++ flat_map Definition_get_required_labels segments.
Proof.
  intros default segments. unfold Specification_get_required_labels.
  rewrite required_labels_fold.
  unfold Specification_all_definitions, Specification_build.
  destruct (Specification_build_fields default segments
              (Specification_init default)) as [Hm Hs].
  rewrite Hm, Hs. reflexivity.
Qed.

(** ** A label bound twice *)



